(** * paddle3d/models/base/base_detection.py : BaseDetectionModel

    A shallow embedding of the abstract detection-model base class:
    the tensor specifications ([input_spec], [outputs]), the three-way
    [forward] dispatch, the export-mode flag propagated over the module
    tree ([set_export_mode], [exporting]) and [export].

    Python objects are mutable; the embedding threads the model object
    (the module tree rooted at [self]) and the log of calls made to the
    subclass and to the exporter through a state-and-exception monad. *)

From Stdlib Require Import ZArith String Ascii List.
From stdpp Require Import base option list gmap strings.

Open Scope string_scope.
Open Scope Z_scope.
Open Scope list_scope.

(** ** Python values, exceptions and results *)

(** The values that occur in input/output descriptions. *)
#[warnings="-register-all"]
Inductive pyval : Type :=
| VNone
| VBool (b : bool)
| VInt (z : Z)
| VStr (s : string)
| VList (l : list pyval).

Inductive exn : Type :=
| KeyError (key : string)
| TypeError (msg : string)
| ValueError (msg : string)
| RuntimeError (msg : string).

(** The outcome of running a piece of Python code: a value or a raised
    exception. *)
Inductive result (A : Type) : Type :=
| Ok (a : A)
| Raise (e : exn).
Arguments Ok {A} a.
Arguments Raise {A} e.

Definition rbind {A B} (r : result A) (k : A -> result B) : result B :=
  match r with
  | Ok a => k a
  | Raise e => Raise e
  end.

(** ** Dictionaries keyed by Python values

    [hashable] and [key_eqb] follow Python's [hash] and [==] on the
    values above: a list cannot be a key, and [True == 1], [False == 0]. *)
Definition hashable (v : pyval) : bool :=
  match v with
  | VList _ => false
  | _ => true
  end.

Definition key_eqb (a b : pyval) : bool :=
  match a, b with
  | VNone, VNone => true
  | VBool x, VBool y => Bool.eqb x y
  | VBool x, VInt y => Z.eqb (Z.b2z x) y
  | VInt x, VBool y => Z.eqb x (Z.b2z y)
  | VInt x, VInt y => Z.eqb x y
  | VStr x, VStr y => String.eqb x y
  | _, _ => false
  end.

(** A dict in insertion order; keys are pairwise different. *)
Definition pydict (V : Type) : Type := list (pyval * V).

Fixpoint dict_get {V} (d : pydict V) (k : pyval) : option V :=
  match d with
  | [] => None
  | (k', v) :: d' => if key_eqb k' k then Some v else dict_get d' k
  end.

(** [d[k] = v]: an existing key keeps its place and gets the new value,
    a new key is appended. *)
Fixpoint dict_setitem {V} (d : pydict V) (k : pyval) (v : V) : pydict V :=
  match d with
  | [] => [(k, v)]
  | (k', v') :: d' =>
      if key_eqb k' k then (k', v) :: d' else (k', v') :: dict_setitem d' k v
  end.

(** ** The runtime's tensor descriptor

    [paddle.static.InputSpec(shape, dtype='float32', name=None,
    stop_gradient=False)] belongs to the tensor runtime. Its constructor
    checks [shape], overwrites dimensions of the list it was handed,
    and converts [dtype]. The tuple it keeps as the descriptor's shape
    is written here as the list of its elements. *)
Record InputSpec : Type := mkInputSpec {
  shape : pyval;
  dtype : pyval;
  name : pyval;
  stop_gradient : pyval
}.

(** What is the runtime's own and differs between its releases is taken
    as given: how a dtype that is not [None] is converted (numpy reads
    it, the runtime's table maps it), and whether a shape without
    dimensions is accepted. *)
Class Runtime : Type := {
  convert_np_dtype_to_dtype_ : pyval -> result pyval;
  accepts_empty_shape : bool
}.

Definition InputSpec_params : gset string :=
  {[ "shape"; "dtype"; "name"; "stop_gradient" ]}.

(** The loop of the constructor's shape check over the elements: each
    must be [None] or an [int] (a [bool] is one), and [None] and what
    is below [-1] is overwritten with [-1] in the list itself. The list
    as left behind comes first: elements before a refused one have
    been overwritten already. *)
Fixpoint verify_dims (dims : list pyval) : list pyval * result unit :=
  match dims with
  | [] => ([], Ok tt)
  | ele :: rest =>
      match ele with
      | VNone =>
          let '(rest', r) := verify_dims rest in (VInt (-1) :: rest', r)
      | VInt z =>
          let '(rest', r) := verify_dims rest in
          ((if z <? -1 then VInt (-1) else ele) :: rest', r)
      | VBool _ =>
          let '(rest', r) := verify_dims rest in (ele :: rest', r)
      | _ => (dims, Raise (ValueError "shape element should be an int"))
      end
  end.

(** The constructor's shape check: the shape as left behind, and the
    tuple made of it. *)
Definition InputSpec_verify {R : Runtime} (shape : pyval) : pyval * result pyval :=
  match shape with
  | VList [] =>
      if accepts_empty_shape then (shape, Ok (VList []))
      else (shape, Raise (ValueError "shape should contain at least 1 element"))
  | VList dims =>
      let '(dims', r) := verify_dims dims in
      (VList dims', rbind r (fun _ => Ok (VList dims')))
  | _ => (shape, Raise (TypeError "shape should be one of (tuple, list)"))
  end.

(** [InputSpec( **kw )]: the entry [kw] as the call leaves it (its shape
    list is the one the constructor works on), and the descriptor or
    the exception. The shape is checked before the dtype is converted. *)
Definition InputSpec_init {R : Runtime} (kw : gmap string pyval)
  : gmap string pyval * result InputSpec :=
  if decide (dom kw ⊆ InputSpec_params) then
    match kw !! "shape" with
    | Some s =>
        let '(s', r) := InputSpec_verify s in
        let kw' := <["shape" := s']> kw in
        match r with
        | Ok tuple_ =>
            let converted :=
              match default (VStr "float32") (kw !! "dtype") with
              | VNone => Ok VNone
              | d => convert_np_dtype_to_dtype_ d
              end in
            (kw', rbind converted (fun d =>
                    Ok {| shape := tuple_;
                          dtype := d;
                          name := default VNone (kw !! "name");
                          stop_gradient :=
                            default (VBool false) (kw !! "stop_gradient") |}))
        | Raise e => (kw', Raise e)
        end
    | None => (kw, Raise (TypeError "missing required argument shape"))
    end
  else (kw, Raise (TypeError "unexpected keyword argument")).

(** What the call returns or raises. *)
Definition InputSpec_kw {R : Runtime} (kw : gmap string pyval) : result InputSpec :=
  (InputSpec_init kw).2.

(** ** input_spec *)

(** [_input['name']] *)
Definition getitem (d : gmap string pyval) (k : string) : result pyval :=
  match d !! k with
  | Some v => Ok v
  | None => Raise (KeyError k)
  end.

(** One round of the dict comprehension: the key expression, then the
    value expression, then the store. The entry as the round leaves it
    comes first. *)
Definition input_spec_step {R : Runtime} (data : pydict InputSpec)
  (_input : gmap string pyval)
  : gmap string pyval * result (pydict InputSpec) :=
  match getitem _input "name" with
  | Ok k =>
      let '(after, v) := InputSpec_init _input in
      (after, rbind v (fun v =>
               if hashable k then Ok (dict_setitem data k v)
               else Raise (TypeError "unhashable type")))
  | Raise e => (_input, Raise e)
  end.

Fixpoint input_spec_loop {R : Runtime} (data : pydict InputSpec)
  (inputs : list (gmap string pyval))
  : list (gmap string pyval) * result (pydict InputSpec) :=
  match inputs with
  | [] => ([], Ok data)
  | _input :: rest =>
      let '(after, r) := input_spec_step data _input in
      match r with
      | Ok data' =>
          let '(rest', r') := input_spec_loop data' rest in (after :: rest', r')
      | Raise e => (after :: rest, Raise e)
      end
  end.

(** The property [input_spec] run on the entries [inputs] hands out:
    the entries as it leaves them, and [[data]] or the exception. *)
Definition input_spec_run {R : Runtime} (inputs : list (gmap string pyval))
  : list (gmap string pyval) * result (list (pydict InputSpec)) :=
  let '(after, r) := input_spec_loop [] inputs in
  (after, rbind r (fun data => Ok [data])).

Definition input_spec_of {R : Runtime} (inputs : list (gmap string pyval))
  : result (list (pydict InputSpec)) :=
  (input_spec_run inputs).2.


Definition image_entry : gmap string pyval :=
  {[ "name" := VStr "image";
     "dtype" := VStr "float32";
     "shape" := VList [VInt (-1); VInt 3; VInt 224; VInt 224] ]}.

(** ** The model object

    The attributes [__init__] sets, the runtime's
    [training] flag, and the sub-modules registered on it. A sub-module
    is any runtime layer: it carries [in_export_mode] only once
    [set_export_mode] has assigned it. *)
#[warnings="-register-all"]
Inductive Layer : Type := mkLayer {
  layer_in_export_mode : option bool;
  layer_training : bool;
  sub_layers : list Layer
}.

Record Model : Type := mkModel {
  box_with_velocity : bool;
  in_export_mode : bool;
  training : bool;
  children : list Layer
}.

(** [__init__(box_with_velocity)] on top of the runtime's layer
    constructor, which starts every layer in training mode with no
    sub-modules. *)
Definition init (box_with_velocity : bool) : Model :=
  {| box_with_velocity := box_with_velocity;
     in_export_mode := false;
     training := true;
     children := [] |}.

(** ** outputs *)

Definition outputs (self : Model) : list (gmap string pyval) :=
  let boxdim := if negb (box_with_velocity self) then 7 else 9 in
  let box3ds : gmap string pyval :=
    {[ "name" := VStr "box3d"; "dtype" := VStr "float32";
       "shape" := VList [VInt (-1); VInt boxdim] ]} in
  let labels : gmap string pyval :=
    {[ "name" := VStr "label"; "dtype" := VStr "int32";
       "shape" := VList [VInt (-1)] ]} in
  let confidences : gmap string pyval :=
    {[ "name" := VStr "confidence"; "dtype" := VStr "float32";
       "shape" := VList [VInt (-1)] ]} in
  [box3ds; labels; confidences].

(** ** The module tree

    A node of the tree is referred to by the positions to follow from
    the model: [[]] is the model itself, [i :: p] is the node [p] below
    its [i]-th sub-module. *)
Definition path : Type := list nat.

Fixpoint layer_at (p : path) (l : Layer) : option Layer :=
  match p with
  | [] => Some l
  | i :: p' =>
      match sub_layers l !! i with
      | Some c => layer_at p' c
      | None => None
      end
  end.

Definition descendant (self : Model) (p : path) : option Layer :=
  match p with
  | [] => None
  | i :: p' =>
      match children self !! i with
      | Some c => layer_at p' c
      | None => None
      end
  end.

Definition is_node (self : Model) (p : path) : Prop :=
  p = [] \/ is_Some (descendant self p).

(** Reading [node.in_export_mode]: [None] when [p] is no node or the
    node has no such attribute. *)
Definition layer_in_export_mode_at (p : path) (l : Layer) : option bool :=
  match layer_at p l with
  | Some node => layer_in_export_mode node
  | None => None
  end.

Definition in_export_mode_at (self : Model) (p : path) : option bool :=
  match p with
  | [] => Some (in_export_mode self)
  | i :: p' =>
      match children self !! i with
      | Some c => layer_in_export_mode_at p' c
      | None => None
      end
  end.

(** [node.in_export_mode = mode] for the node at [p]. *)
Fixpoint layer_setattr (p : path) (mode : bool) (l : Layer) : Layer :=
  match p with
  | [] => mkLayer (Some mode) (layer_training l) (sub_layers l)
  | i :: p' =>
      match sub_layers l !! i with
      | Some c =>
          mkLayer (layer_in_export_mode l) (layer_training l)
                  (<[i := layer_setattr p' mode c]> (sub_layers l))
      | None => l
      end
  end.

Definition setattr_in_export_mode (self : Model) (p : path) (mode : bool) : Model :=
  match p with
  | [] => mkModel (box_with_velocity self) mode (training self) (children self)
  | i :: p' =>
      match children self !! i with
      | Some c =>
          mkModel (box_with_velocity self) (in_export_mode self) (training self)
                  (<[i := layer_setattr p' mode c]> (children self))
      | None => self
      end
  end.

(** The runtime's enumeration of a layer and everything below it, the
    layer first, then each sub-module's subtree in registration order. *)
Fixpoint layer_sublayers (l : Layer) : list path :=
  [] :: (fix below (i : nat) (cs : list Layer) : list path :=
           match cs with
           | [] => []
           | c :: cs' => (cons i <$> layer_sublayers c) ++ below (S i) cs'
           end) 0%nat (sub_layers l).

Fixpoint forest_sublayers (i : nat) (cs : list Layer) : list path :=
  match cs with
  | [] => []
  | c :: cs' => (cons i <$> layer_sublayers c) ++ forest_sublayers (S i) cs'
  end.

(** [self.sublayers(include_self)] *)
Definition sublayers (self : Model) (include_self : bool) : list path :=
  (if include_self then [[]] else []) ++ forest_sublayers 0 (children self).

(** [set_export_mode]: the list of sub-modules is taken once, then the
    loop assigns the attribute on each of them in turn. *)
Definition set_export_mode (self : Model) (mode : bool) : Model :=
  foldl (fun m sublayer => setattr_in_export_mode m sublayer mode)
        self (sublayers self true).

(** ** The program state and its monad

    What a call can observe afterwards: the model object, mutated in
    place, and the calls that went out to the subclass's computations
    and to the exporter, in order. A raised exception leaves the
    mutations made so far in place. *)
Inductive forward_path : Type := ExportPath | TrainPath | TestPath.

Inductive call (Samples : Type) : Type :=
| CallForward (which : forward_path) (samples : Samples)
| CallToStatic (input_spec : list (pydict InputSpec))
| CallSave (file : string) (input_spec : list (list (pydict InputSpec))).
Arguments CallForward {Samples} which samples.
Arguments CallToStatic {Samples} input_spec.
Arguments CallSave {Samples} file input_spec.

Record World (Samples : Type) : Type := mkWorld {
  self : Model;
  calls : list (call Samples)
}.
Arguments mkWorld {Samples} self calls.
Arguments self {Samples} w.
Arguments calls {Samples} w.

Definition M (Samples A : Type) : Type := World Samples -> World Samples * result A.

#[global] Instance result_ret : MRet result := fun A a => Ok a.
#[global] Instance result_bind : MBind result := fun A B k r => rbind r k.

#[global] Instance M_ret {Samples} : MRet (M Samples) := fun A a w => (w, Ok a).
#[global] Instance M_bind {Samples} : MBind (M Samples) := fun A B k c w =>
  match c w with
  | (w', Ok a) => k a w'
  | (w', Raise e) => (w', Raise e)
  end.

Definition raise {Samples A} (e : exn) : M Samples A := fun w => (w, Raise e).

Definition get_self {Samples} : M Samples Model := fun w => (w, Ok (self w)).

Definition record {Samples} (c : call Samples) : M Samples unit :=
  fun w => (mkWorld (self w) (calls w ++ [c]), Ok tt).

(** Code that works on the model object only. *)
Definition on_self {Samples A} (f : Model -> Model * result A) : M Samples A :=
  fun w => let '(m, r) := f (self w) in (mkWorld m (calls w), r).

Definition of_result {Samples A} (r : result A) : M Samples A := fun w => (w, r).

(** ** The abstract members and the collaborators

    A concrete model class supplies the five abstract members; its
    name is what [self.__class__.__name__] evaluates to (an ASCII
    identifier). [inputs] is the description the model declares, plain
    data. The three computations may mutate the model and may raise. *)
Class DetectionClass (Samples Out : Type) : Type := {
  class_name : string;
  inputs : list (gmap string pyval);
  sensor : string;
  test_forward : Samples -> Model -> Model * result Out;
  train_forward : Samples -> Model -> Model * result Out;
  export_forward : Samples -> Model -> Model * result Out
}.

(** The static-graph exporter: [paddle.jit.to_static(layer, input_spec)]
    and [paddle.jit.save(layer, path, input_spec)]. Either may mutate
    the model and may raise. *)
Class Exporter : Type := {
  jit_to_static : list (pydict InputSpec) -> Model -> Model * result unit;
  jit_save : string -> list (list (pydict InputSpec)) -> Model -> Model * result unit
}.

(** ** forward *)

Definition run_path {Samples Out} {C : DetectionClass Samples Out} (which : forward_path)
  : Samples -> Model -> Model * result Out :=
  match which with
  | ExportPath => export_forward
  | TrainPath => train_forward
  | TestPath => test_forward
  end.

(** A call of [self.export_forward], [self.train_forward] or
    [self.test_forward]. *)
Definition invoke {Samples Out} {C : DetectionClass Samples Out} (which : forward_path)
  (samples : Samples) : M Samples Out :=
  record (CallForward which samples);; on_self (run_path which samples).

Definition forward {Samples Out} {C : DetectionClass Samples Out} (samples : Samples) : M Samples Out :=
  me ← get_self;
  if in_export_mode me then invoke ExportPath samples
  else if training me then invoke TrainPath samples
  else invoke TestPath samples.

(** ** exporting

    A generator function decorated with [contextlib.contextmanager]
    and holding one [yield] outside any [try]: the code before the
    [yield] and the code after it. *)
Record contextmanager (Samples : Type) : Type := mkContextManager {
  before_yield : M Samples unit;
  after_yield : M Samples unit
}.
Arguments mkContextManager {Samples} before_yield after_yield.
Arguments before_yield {Samples} c.
Arguments after_yield {Samples} c.

(** [with cm: body]. On entry the generator runs up to its [yield].
    When the body returns, the generator is resumed and runs to its
    end. When the body raises, the exception is thrown into the
    generator at the [yield]; no handler encloses the [yield], so the
    generator ends there and the exception leaves the [with]. *)
Definition with_ {Samples A} (cm : contextmanager Samples) (body : M Samples A)
  : M Samples A :=
  fun w =>
    match before_yield cm w with
    | (w1, Raise e) => (w1, Raise e)
    | (w1, Ok _) =>
        match body w1 with
        | (w2, Ok a) =>
            match after_yield cm w2 with
            | (w3, Ok _) => (w3, Ok a)
            | (w3, Raise e) => (w3, Raise e)
            end
        | (w2, Raise e) => (w2, Raise e)
        end
    end.

Definition do_set_export_mode {Samples} (mode : bool) : M Samples unit :=
  on_self (fun me => (set_export_mode me mode, Ok tt)).

Definition exporting {Samples} : contextmanager Samples :=
  {| before_yield := do_set_export_mode true;
     after_yield := do_set_export_mode false |}.

(** ** save_name and export *)

(** [str.lower] on ASCII text. *)
Definition lower_ascii (c : ascii) : ascii :=
  let n := nat_of_ascii c in
  if ((65 <=? n) && (n <=? 90))%nat then ascii_of_nat (n + 32) else c.

Fixpoint lower (s : string) : string :=
  match s with
  | EmptyString => EmptyString
  | String c s' => String (lower_ascii c) (lower s')
  end.

Definition save_name {Samples Out} {C : DetectionClass Samples Out} : string := lower class_name.

(** [os.path.join(a, b)] with the separator [/]. *)
Definition startswith_sep (s : string) : bool :=
  match s with
  | String c _ => Ascii.eqb c "/"
  | EmptyString => false
  end.

Fixpoint endswith_sep (s : string) : bool :=
  match s with
  | EmptyString => false
  | String c EmptyString => Ascii.eqb c "/"
  | String _ s' => endswith_sep s'
  end.

Definition os_path_join (a b : string) : string :=
  if startswith_sep b then b
  else if String.eqb a EmptyString || endswith_sep a then String.append a b
  else String.append a (String "/" b).

(** [name or self.save_name]: [None] and the empty string are falsy. *)
Definition name_or (name : option string) (fallback : string) : string :=
  match name with
  | Some (String c s) => String c s
  | Some EmptyString => fallback
  | None => fallback
  end.

(** The property [self.input_spec], read inside a computation. Each
    read of [self.inputs] hands out the model's description; what the
    read does to the entries handed out is [input_spec_leaves]. *)
Definition input_spec {R : Runtime} {Samples Out} {C : DetectionClass Samples Out}
  : M Samples (list (pydict InputSpec)) :=
  of_result (input_spec_of inputs).

Definition to_static {E : Exporter} {Samples} (spec : list (pydict InputSpec))
  : M Samples unit :=
  record (CallToStatic spec);; on_self (jit_to_static spec).

Definition save {E : Exporter} {Samples} (file : string)
  (spec : list (list (pydict InputSpec))) : M Samples unit :=
  record (CallSave file spec);; on_self (jit_save file spec).

Definition export {R : Runtime} {Samples Out} {C : DetectionClass Samples Out}
  {E : Exporter} (save_dir : string) (name : option string) : M Samples unit :=
  let name := name_or name save_name in
  with_ exporting
    (spec ← input_spec;
     to_static spec;;
     let file := os_path_join save_dir name in
     spec' ← input_spec;
     save file [spec']).

(** ** Abstract members and instantiation

    [BaseDetectionModel] derives from [abc.ABC]. A class statement is
    seen here as the names its body binds, each to an abstract or to a
    concrete definition; a concrete model class is a chain of such
    statements below [BaseDetectionModel]. *)
Inductive member : Type := AbstractMember | ConcreteMember.

#[global] Instance member_eq_dec : EqDecision member.
Proof. solve_decision. Defined.

(** The names decorated with [abc.abstractproperty] or
    [abc.abstractmethod] in [BaseDetectionModel]. *)
Definition BaseDetectionModel_abstractmethods : gset string :=
  {[ "inputs"; "sensor"; "test_forward"; "train_forward"; "export_forward" ]}.

(** [__abstractmethods__] of a class with the given body whose base
    has the abstract names [base]: the names the body binds to abstract
    definitions, and the abstract names of the base the body leaves
    alone. *)
Definition abstractmethods (base : gset string) (body : gmap string member)
  : gset string :=
  dom (filter (fun kv => kv.2 = AbstractMember) body)
  ∪ filter (fun n => body !! n = None) base.

Definition class_abstractmethods (chain : list (gmap string member)) : gset string :=
  foldl abstractmethods BaseDetectionModel_abstractmethods chain.

(** The definition attribute lookup finds for [n] on the class at the
    end of the chain. *)
Definition class_getattr (chain : list (gmap string member)) (n : string)
  : option member :=
  foldl (fun found body =>
           match body !! n with
           | Some d => Some d
           | None => found
           end)
        (if decide (n ∈ BaseDetectionModel_abstractmethods)
         then Some AbstractMember else None)
        chain.

(** Calling the class: object creation refuses a class whose
    [__abstractmethods__] is not empty, before any [__init__] runs.
    Otherwise the [__init__] that attribute lookup finds runs: the one
    of [BaseDetectionModel] when no class of the chain binds the name,
    else the class's own, whose outcome [own_init] is whatever that
    code makes of the call. *)
Definition instantiate (chain : list (gmap string member))
  (own_init : result Model) (box_with_velocity : bool) : result Model :=
  if decide (class_abstractmethods chain = ∅) then
    match class_getattr chain "__init__" with
    | Some _ => own_init
    | None => Ok (init box_with_velocity)
    end
  else Raise (TypeError "Can't instantiate abstract class").

(** ** A concrete runtime, model and exporter

    A runtime that knows the usual dtypes by their usual names and
    refuses a shape without dimensions. *)
Definition TableRuntime : Runtime := {|
  convert_np_dtype_to_dtype_ := fun v =>
    match v with
    | VStr s =>
        if existsb (String.eqb s)
             ["bool"; "float16"; "float32"; "float64";
              "int8"; "int16"; "int32"; "int64"; "uint8"]
        then Ok (VStr s)
        else Raise (TypeError "data type not understood")
    | _ => Raise (TypeError "data type not understood")
    end;
  accepts_empty_shape := false
|}.

(** A class [ImageModel] with one image input whose three computations
    return at once, and an exporter that traces and saves without
    touching the model. *)
Definition ImageModel : DetectionClass unit unit := {|
  class_name := "ImageModel";
  inputs := [image_entry];
  sensor := "camera";
  test_forward := fun _ me => (me, Ok tt);
  train_forward := fun _ me => (me, Ok tt);
  export_forward := fun _ me => (me, Ok tt)
|}.

Definition QuietExporter : Exporter := {|
  jit_to_static := fun _ me => (me, Ok tt);
  jit_save := fun _ _ me => (me, Ok tt)
|}.

(** An exporter whose serializer fails. *)
Definition FailingExporter : Exporter := {|
  jit_to_static := fun _ me => (me, Ok tt);
  jit_save := fun _ _ me => (me, Raise (RuntimeError "cannot save"))
|}.

(** A class declaring two inputs under one name. *)
Definition small_image_entry : gmap string pyval :=
  {[ "name" := VStr "image";
     "dtype" := VStr "float16";
     "shape" := VList [VInt (-1); VInt 3; VInt 32; VInt 32] ]}.

Definition TwoImagesModel : DetectionClass unit unit := {|
  class_name := "TwoImagesModel";
  inputs := [image_entry; small_image_entry];
  sensor := "camera";
  test_forward := fun _ me => (me, Ok tt);
  train_forward := fun _ me => (me, Ok tt);
  export_forward := fun _ me => (me, Ok tt)
|}.

(** A model holding one sub-module that holds another. *)
Definition nested_model : Model :=
  {| box_with_velocity := false;
     in_export_mode := false;
     training := true;
     children := [mkLayer None true [mkLayer None true []]] |}.

(** ** Vocabulary for the statements below *)

(** An entry of [inputs] on which one round of [input_spec] goes
    through: it has a name, the name can be a dict key, and the
    descriptor's constructor returns on it. *)
Definition well_formed {R : Runtime} (e : gmap string pyval) : Prop :=
  (exists k, e !! "name" = Some k /\ hashable k = true)
  /\ exists d, InputSpec_kw e = Ok d.

Definition name_of (e : gmap string pyval) : pyval :=
  default VNone (e !! "name").

(** The descriptor the constructor returns on [e], where it returns. *)
Definition descriptor_of {R : Runtime} (e : gmap string pyval) : InputSpec :=
  match InputSpec_kw e with
  | Ok d => d
  | Raise _ => mkInputSpec VNone VNone VNone VNone
  end.

(** A dimension, and an entry, after the constructor's overwriting. *)
Definition normal_dim (ele : pyval) : pyval :=
  match ele with
  | VNone => VInt (-1)
  | VInt z => if z <? -1 then VInt (-1) else ele
  | _ => ele
  end.

Definition normal_entry (e : gmap string pyval) : gmap string pyval :=
  match e !! "shape" with
  | Some (VList dims) => <["shape" := VList (normal_dim <$> dims)]> e
  | _ => e
  end.


Fixpoint keys_distinct {V} (d : pydict V) : Prop :=
  match d with
  | [] => True
  | (k, _) :: d' => dict_get d' k = None /\ keys_distinct d'
  end.

(** The dict after storing, for each entry in turn, its descriptor
    under its name. *)
Definition stored {R : Runtime} (data : pydict InputSpec)
  (inputs : list (gmap string pyval)) : pydict InputSpec :=
  foldl (fun d e => dict_setitem d (name_of e) (descriptor_of e)) data inputs.


(** Every node of the tree carries the flag [mode]. *)
Definition uniform (self : Model) (mode : bool) : Prop :=
  forall p, is_node self p -> in_export_mode_at self p = Some mode.

(** Induction over a module tree: a property holds of every layer when
    it holds of a layer as soon as it holds of its sub-modules. *)
Fixpoint Layer_forall_ind (P : Layer -> Prop)
  (step : forall f t cs, Forall P cs -> P (mkLayer f t cs)) (l : Layer) : P l :=
  match l with
  | mkLayer f t cs =>
      step f t cs
        ((fix all (cs : list Layer) : Forall P cs :=
            match cs with
            | [] => @List.Forall_nil Layer P
            | c :: cs' =>
                @List.Forall_cons Layer P c cs' (Layer_forall_ind P step c) (all cs')
            end) cs)
  end.

(** The layer with the attribute assigned on it and on everything
    below it. *)
Fixpoint layer_fill (mode : bool) (l : Layer) : Layer :=
  match l with
  | mkLayer _ t cs => mkLayer (Some mode) t (List.map (layer_fill mode) cs)
  end.

(** The model object seen as a layer of the runtime. *)
Definition as_layer (self : Model) : Layer :=
  mkLayer (Some (in_export_mode self)) (training self) (children self).

(** An entry whose batch dimension is left open with [None]. *)
Definition points_entry : gmap string pyval :=
  {[ "name" := VStr "points";
     "dtype" := VStr "float32";
     "shape" := VList [VNone; VInt 4] ]}.

Definition PointsModel : DetectionClass unit unit := {|
  class_name := "PointsModel";
  inputs := [points_entry];
  sensor := "lidar";
  test_forward := fun _ me => (me, Ok tt);
  train_forward := fun _ me => (me, Ok tt);
  export_forward := fun _ me => (me, Ok tt)
|}.

(** A class one of whose inputs has no name. *)
Definition nameless_entry : gmap string pyval :=
  {[ "dtype" := VStr "float32";
     "shape" := VList [VInt (-1); VInt 4] ]}.

Definition NamelessModel : DetectionClass unit unit := {|
  class_name := "NamelessModel";
  inputs := [image_entry; nameless_entry; small_image_entry];
  sensor := "lidar";
  test_forward := fun _ me => (me, Ok tt);
  train_forward := fun _ me => (me, Ok tt);
  export_forward := fun _ me => (me, Ok tt)
|}.

(** An exporter whose tracer fails. *)
Definition FailingTracer : Exporter := {|
  jit_to_static := fun _ me => (me, Raise (RuntimeError "cannot trace"));
  jit_save := fun _ _ me => (me, Ok tt)
|}.

(** A model out of export mode on every node. *)
Definition settled_model : Model :=
  {| box_with_velocity := true;
     in_export_mode := false;
     training := false;
     children := [mkLayer (Some false) false [mkLayer (Some false) true []];
                  mkLayer (Some false) true []] |}.

(* ================================================================= *)
(** * Properties *)

(** ** Dict keys *)

Lemma key_eqb_sym (a b : pyval) : key_eqb a b = key_eqb b a.
Proof.
  destruct a, b; simpl; try reflexivity.
  - destruct b, b0; reflexivity.
  - apply Z.eqb_sym.
  - apply Z.eqb_sym.
  - apply Z.eqb_sym.
  - apply String.eqb_sym.
Qed.

Ltac key_facts :=
  repeat match goal with
         | H : Z.eqb _ _ = true |- _ => apply Z.eqb_eq in H
         | H : Bool.eqb _ _ = true |- _ => apply Bool.eqb_prop in H
         | H : String.eqb _ _ = true |- _ => apply String.eqb_eq in H
         end.

Lemma key_eqb_trans (a b c : pyval) :
  key_eqb a b = true -> key_eqb b c = true -> key_eqb a c = true.
Proof.
  destruct a, b, c; simpl; try discriminate; try reflexivity;
    intros H1 H2; key_facts; subst;
    first [ apply Z.eqb_eq | apply String.eqb_eq | idtac ];
    try reflexivity;
    repeat match goal with b : bool |- _ => destruct b end;
    simpl in *; try reflexivity; try discriminate; try lia.
Qed.

Lemma key_eqb_refl (k : pyval) : hashable k = true -> key_eqb k k = true.
Proof.
  destruct k; simpl; intros Hk; try reflexivity; try discriminate.
  - destruct b; reflexivity.
  - apply Z.eqb_refl.
  - apply String.eqb_refl.
Qed.

(** Keys that are equal to one another select the same items. *)
Lemma key_eqb_congr (a b c : pyval) :
  key_eqb a b = true -> key_eqb a c = key_eqb b c.
Proof.
  intros Hab.
  destruct (key_eqb b c) eqn:Hbc.
  - exact (key_eqb_trans _ _ _ Hab Hbc).
  - destruct (key_eqb a c) eqn:Hac; [|reflexivity].
    rewrite key_eqb_sym in Hab.
    rewrite <- Hbc. symmetry. exact (key_eqb_trans _ _ _ Hab Hac).
Qed.

Section dict_facts.
Context {V : Type}.
Implicit Types (d : pydict V) (k : pyval) (v : V).

Lemma dict_get_setitem d k v k' :
  dict_get (dict_setitem d k v) k' =
  if key_eqb k k' then Some v else dict_get d k'.
Proof.
  induction d as [|[k0 v0] d IH]; simpl.
  - reflexivity.
  - destruct (key_eqb k0 k) eqn:Hk0; simpl.
    + rewrite (key_eqb_congr _ _ k' Hk0).
      destruct (key_eqb k k'); reflexivity.
    + rewrite IH.
      destruct (key_eqb k0 k') eqn:Hk0'; [|reflexivity].
      destruct (key_eqb k k') eqn:Hkk'; [|reflexivity].
      rewrite key_eqb_sym in Hkk'.
      rewrite (key_eqb_trans _ _ _ Hk0' Hkk') in Hk0. discriminate.
Qed.

Lemma dict_setitem_length d k v :
  length (dict_setitem d k v) =
  match dict_get d k with
  | Some _ => length d
  | None => S (length d)
  end.
Proof.
  induction d as [|[k0 v0] d IH]; simpl.
  - reflexivity.
  - destruct (key_eqb k0 k); simpl; [reflexivity|].
    rewrite IH. destruct (dict_get d k); reflexivity.
Qed.

Lemma dict_setitem_distinct d k v :
  keys_distinct d -> keys_distinct (dict_setitem d k v).
Proof.
  induction d as [|[k0 v0] d IH]; simpl.
  - intros _. split; [reflexivity | exact I].
  - intros [Hfresh Hd].
    destruct (key_eqb k0 k) eqn:Hk0; simpl.
    + split; assumption.
    + split; [|apply IH, Hd].
      rewrite dict_get_setitem, key_eqb_sym, Hk0. exact Hfresh.
Qed.

End dict_facts.

(** ** input_spec *)

Section input_spec_store.
Context {R : Runtime}.

Lemma InputSpec_kw_ok (e : gmap string pyval) :
  well_formed e -> InputSpec_kw e = Ok (descriptor_of e).
Proof.
  intros (_ & d & Hd). unfold descriptor_of. rewrite Hd. reflexivity.
Qed.

(** What one round returns depends on the entry and, for the value
    stored, on the dict so far. *)
Lemma input_spec_step_result (data : pydict InputSpec) (e : gmap string pyval) :
  (input_spec_step data e).2 =
  rbind (getitem e "name") (fun k =>
  rbind (InputSpec_kw e) (fun v =>
  if hashable k then Ok (dict_setitem data k v)
  else Raise (TypeError "unhashable type"))).
Proof.
  unfold input_spec_step, InputSpec_kw.
  destruct (getitem e "name") as [k|x]; simpl; [|reflexivity].
  destruct (InputSpec_init e) as [after v]. reflexivity.
Qed.

Lemma input_spec_loop_result (data : pydict InputSpec) e rest :
  (input_spec_loop data (e :: rest)).2 =
  rbind (input_spec_step data e).2 (fun d => (input_spec_loop d rest).2).
Proof.
  simpl. destruct (input_spec_step data e) as [after [d|x]]; simpl;
    [|reflexivity].
  destruct (input_spec_loop d rest). reflexivity.
Qed.

Lemma input_spec_of_result (inputs : list (gmap string pyval)) :
  input_spec_of inputs =
  rbind (input_spec_loop [] inputs).2 (fun data => Ok [data]).
Proof.
  unfold input_spec_of, input_spec_run.
  destruct (input_spec_loop [] inputs). reflexivity.
Qed.

Lemma input_spec_step_ok (data : pydict InputSpec) (e : gmap string pyval) :
  well_formed e ->
  (input_spec_step data e).2
  = Ok (dict_setitem data (name_of e) (descriptor_of e)).
Proof.
  intros He. pose proof (InputSpec_kw_ok e He) as Hkw.
  destruct He as ((k & Hk & Hhash) & _).
  rewrite input_spec_step_result. unfold getitem, name_of.
  rewrite Hk, Hkw. simpl. rewrite Hhash. reflexivity.
Qed.

Lemma input_spec_loop_ok (inputs : list (gmap string pyval)) :
  Forall well_formed inputs ->
  forall data, (input_spec_loop data inputs).2 = Ok (stored data inputs).
Proof.
  induction 1 as [|e rest He _ IH]; intros data.
  - reflexivity.
  - rewrite input_spec_loop_result, (input_spec_step_ok data e He). simpl.
    apply IH.
Qed.

Lemma input_spec_of_ok (inputs : list (gmap string pyval)) :
  Forall well_formed inputs -> input_spec_of inputs = Ok [stored [] inputs].
Proof.
  intros Hwf. rewrite input_spec_of_result, (input_spec_loop_ok inputs Hwf).
  reflexivity.
Qed.



Lemma stored_distinct (inputs : list (gmap string pyval)) :
  forall data, keys_distinct data -> keys_distinct (stored data inputs).
Proof.
  induction inputs as [|e rest IH]; intros data Hd.
  - exact Hd.
  - apply (IH (dict_setitem data (name_of e) (descriptor_of e))).
    apply dict_setitem_distinct, Hd.
Qed.


Lemma stored_length (inputs : list (gmap string pyval)) :
  forall data, (length (stored data inputs) <= length data + length inputs)%nat.
Proof.
  induction inputs as [|e rest IH]; intros data.
  - simpl. lia.
  - specialize (IH (dict_setitem data (name_of e) (descriptor_of e))).
    rewrite dict_setitem_length in IH.
    change (stored data (e :: rest))
      with (stored (dict_setitem data (name_of e) (descriptor_of e)) rest).
    simpl. destruct (dict_get data (name_of e)); lia.
Qed.



End input_spec_store.

(** ** The module tree *)

Lemma layer_sublayers_unfold (l : Layer) :
  layer_sublayers l = [] :: forest_sublayers 0 (sub_layers l).
Proof. destruct l. reflexivity. Qed.

Lemma forest_sublayers_complete (cs : list Layer) :
  forall (k i : nat) c p,
    cs !! i = Some c -> p ∈ layer_sublayers c ->
    (k + i)%nat :: p ∈ forest_sublayers k cs.
Proof.
  induction cs as [|c0 cs IH]; intros k i c p Hi Hp.
  - discriminate.
  - simpl. apply elem_of_app. destruct i as [|i].
    + injection Hi as ->. left. rewrite Nat.add_0_r.
      apply list_elem_of_fmap_2, Hp.
    + right. replace (k + S i)%nat with (S k + i)%nat by lia.
      apply (IH (S k) i c p); assumption.
Qed.

(** The enumeration reaches every node. *)
Lemma layer_sublayers_complete (p : path) :
  forall l, is_Some (layer_at p l) -> p ∈ layer_sublayers l.
Proof.
  induction p as [|i p IH]; intros l Hp; rewrite layer_sublayers_unfold.
  - left.
  - right. simpl in Hp.
    destruct (sub_layers l !! i) as [c|] eqn:Hc; [|destruct Hp; discriminate].
    apply (forest_sublayers_complete _ 0%nat i c p Hc).
    apply IH, Hp.
Qed.

Lemma sublayers_complete (self : Model) (p : path) :
  is_node self p -> p ∈ sublayers self true.
Proof.
  unfold sublayers. intros [-> | Hp]; [left|].
  destruct p as [|i p]; [left|]. right. simpl in Hp.
  destruct (children self !! i) as [c|] eqn:Hc; [|destruct Hp; discriminate].
  apply (forest_sublayers_complete _ 0%nat i c p Hc).
  apply layer_sublayers_complete, Hp.
Qed.

(** Assigning the attribute on one node changes no other part of the
    tree's shape. *)
Lemma layer_setattr_node (mode : bool) (q : path) :
  forall p l,
    is_Some (layer_at p (layer_setattr q mode l)) <-> is_Some (layer_at p l).
Proof.
  induction q as [|j q IH]; intros p l.
  - destruct p; simpl; [split; eauto | reflexivity].
  - simpl. destruct (sub_layers l !! j) as [c|] eqn:Hc; [|reflexivity].
    destruct p as [|i p]; simpl; [split; eauto|].
    destruct (decide (i = j)) as [->|Hij].
    + rewrite list_lookup_insert_eq by (eapply lookup_lt_Some, Hc).
      rewrite Hc. apply IH.
    + rewrite list_lookup_insert_ne by congruence. reflexivity.
Qed.

Lemma layer_setattr_same (mode : bool) (q : path) :
  forall l,
    is_Some (layer_at q l) ->
    layer_in_export_mode_at q (layer_setattr q mode l) = Some mode.
Proof.
  unfold layer_in_export_mode_at.
  induction q as [|j q IH]; intros l Hq; simpl.
  - reflexivity.
  - simpl in Hq.
    destruct (sub_layers l !! j) as [c|] eqn:Hc; [|destruct Hq; discriminate].
    simpl. rewrite list_lookup_insert_eq by (eapply lookup_lt_Some, Hc).
    apply IH, Hq.
Qed.

Lemma layer_setattr_keep (mode : bool) (q : path) :
  forall p l,
    layer_in_export_mode_at p l = Some mode ->
    layer_in_export_mode_at p (layer_setattr q mode l) = Some mode.
Proof.
  unfold layer_in_export_mode_at.
  induction q as [|j q IH]; intros p l Hp.
  - destruct p; simpl in *; [reflexivity | exact Hp].
  - simpl. destruct (sub_layers l !! j) as [c|] eqn:Hc; [|exact Hp].
    destruct p as [|i p]; simpl in *; [exact Hp|].
    destruct (decide (i = j)) as [->|Hij].
    + rewrite list_lookup_insert_eq by (eapply lookup_lt_Some, Hc).
      rewrite Hc in Hp. apply IH, Hp.
    + rewrite list_lookup_insert_ne by congruence. exact Hp.
Qed.

Lemma setattr_node (self : Model) (q : path) (mode : bool) (p : path) :
  is_node (setattr_in_export_mode self q mode) p <-> is_node self p.
Proof.
  unfold is_node.
  destruct q as [|j q]; simpl; [reflexivity|].
  destruct (children self !! j) as [c|] eqn:Hc; [|reflexivity].
  destruct p as [|i p]; simpl; [split; intros _; left; reflexivity|].
  destruct (decide (i = j)) as [->|Hij].
  - rewrite list_lookup_insert_eq by (eapply lookup_lt_Some, Hc).
    rewrite Hc, layer_setattr_node. reflexivity.
  - rewrite list_lookup_insert_ne by congruence. reflexivity.
Qed.

Lemma setattr_same (self : Model) (q : path) (mode : bool) :
  is_node self q ->
  in_export_mode_at (setattr_in_export_mode self q mode) q = Some mode.
Proof.
  destruct q as [|j q]; [reflexivity|].
  intros [Hq | Hq]; [discriminate|]. simpl in *.
  destruct (children self !! j) as [c|] eqn:Hc; [|destruct Hq; discriminate].
  simpl. rewrite list_lookup_insert_eq by (eapply lookup_lt_Some, Hc).
  apply layer_setattr_same, Hq.
Qed.

Lemma setattr_keep (self : Model) (q : path) (mode : bool) (p : path) :
  in_export_mode_at self p = Some mode ->
  in_export_mode_at (setattr_in_export_mode self q mode) p = Some mode.
Proof.
  destruct q as [|j q]; simpl.
  - destruct p; simpl; [reflexivity | auto].
  - destruct (children self !! j) as [c|] eqn:Hc; [|auto].
    destruct p as [|i p]; simpl; [auto|].
    destruct (decide (i = j)) as [->|Hij].
    + rewrite list_lookup_insert_eq by (eapply lookup_lt_Some, Hc).
      rewrite Hc. apply layer_setattr_keep.
    + rewrite list_lookup_insert_ne by congruence. auto.
Qed.

(** The loop of [set_export_mode] over any list of nodes. *)
Lemma setattr_loop_node (mode : bool) (ps : list path) :
  forall self p,
    is_node (foldl (fun m q => setattr_in_export_mode m q mode) self ps) p
    <-> is_node self p.
Proof.
  induction ps as [|q ps IH]; intros self p; simpl.
  - reflexivity.
  - rewrite IH. apply setattr_node.
Qed.

Lemma setattr_loop_sets (mode : bool) (ps : list path) :
  forall self p,
    (p ∈ ps /\ is_node self p) \/ in_export_mode_at self p = Some mode ->
    in_export_mode_at
      (foldl (fun m q => setattr_in_export_mode m q mode) self ps) p = Some mode.
Proof.
  induction ps as [|q ps IH]; intros self p Hp; simpl.
  - destruct Hp as [[Hin _] | Hp]; [inversion Hin | exact Hp].
  - apply IH. destruct Hp as [[Hin Hnode] | Hp].
    + apply elem_of_cons in Hin as [-> | Hin].
      * right. apply setattr_same, Hnode.
      * left. split; [exact Hin|]. apply setattr_node, Hnode.
    + right. apply setattr_keep, Hp.
Qed.

Lemma set_export_mode_node (self : Model) (mode : bool) (p : path) :
  is_node (set_export_mode self mode) p <-> is_node self p.
Proof. apply setattr_loop_node. Qed.

Lemma set_export_mode_uniform (self : Model) (mode : bool) :
  uniform (set_export_mode self mode) mode.
Proof.
  intros p Hp. apply set_export_mode_node in Hp.
  apply setattr_loop_sets. left. split; [|exact Hp].
  apply sublayers_complete, Hp.
Qed.

(** ** forward *)

Section forward_facts.
Context {Samples Out} {C : DetectionClass Samples Out}.

Lemma invoke_eq (which : forward_path) (samples : Samples) (w : World Samples) :
  invoke which samples w =
  (mkWorld (run_path which samples (self w)).1
           (calls w ++ [CallForward which samples]),
   (run_path which samples (self w)).2).
Proof.
  unfold invoke, record, on_self, mbind, M_bind. simpl.
  destruct (run_path which samples (self w)). reflexivity.
Qed.

(** C1. [forward] runs exactly one of the three computations, chosen
    by the pair ([in_export_mode], [training]): [export_forward] when
    [in_export_mode] is set, whatever [training] is; otherwise
    [train_forward] when [training] is set; otherwise [test_forward].
    It returns or raises what that computation returns or raises on
    [samples], the model is left as that computation left it, and one
    call, to that computation, is added to the log. *)
Theorem forward_dispatch (samples : Samples) (w : World Samples) :
  forward samples w =
    match in_export_mode (self w), training (self w) with
    | true, _ =>
        (mkWorld (export_forward samples (self w)).1
                 (calls w ++ [CallForward ExportPath samples]),
         (export_forward samples (self w)).2)
    | false, true =>
        (mkWorld (train_forward samples (self w)).1
                 (calls w ++ [CallForward TrainPath samples]),
         (train_forward samples (self w)).2)
    | false, false =>
        (mkWorld (test_forward samples (self w)).1
                 (calls w ++ [CallForward TestPath samples]),
         (test_forward samples (self w)).2)
    end
  /\ (exists! which,
        calls (forward samples w).1 = calls w ++ [CallForward which samples]).
Proof.
  assert (Hfw : forward samples w =
    if in_export_mode (self w) then invoke ExportPath samples w
    else if training (self w) then invoke TrainPath samples w
    else invoke TestPath samples w).
  { unfold forward, get_self, mbind, M_bind.
    destruct (in_export_mode (self w)), (training (self w)); reflexivity. }
  split.
  - rewrite Hfw.
    destruct (in_export_mode (self w)), (training (self w));
      rewrite invoke_eq; reflexivity.
  - assert (Hone : exists which, forward samples w = invoke which samples w).
    { rewrite Hfw.
      destruct (in_export_mode (self w)), (training (self w)); eauto. }
    destruct Hone as [which Hwhich]. exists which. split.
    + rewrite Hwhich, invoke_eq. reflexivity.
    + intros which'. rewrite Hwhich, invoke_eq. simpl. intros Heq.
      apply app_inv_head in Heq. congruence.
Qed.
End forward_facts.

(** ** outputs *)

(** C2. [outputs] is a list of three entries, in this order: [box3d]
    of dtype [float32] and shape [[-1, 7]], or [[-1, 9]] when
    [box_with_velocity] is set; [label] of dtype [int32] and shape
    [[-1]]; [confidence] of dtype [float32] and shape [[-1]]. Nothing
    but [box_with_velocity] enters the result. *)
Theorem outputs_entries (me : Model) :
  outputs me =
    [ {[ "name" := VStr "box3d"; "dtype" := VStr "float32";
         "shape" := VList [VInt (-1);
                           VInt (if box_with_velocity me then 9 else 7)] ]};
      {[ "name" := VStr "label"; "dtype" := VStr "int32";
         "shape" := VList [VInt (-1)] ]};
      {[ "name" := VStr "confidence"; "dtype" := VStr "float32";
         "shape" := VList [VInt (-1)] ]} ]
  /\ outputs me = outputs (init (box_with_velocity me))
  /\ length (outputs me) = 3%nat.
Proof.
  unfold outputs. destruct (box_with_velocity me); simpl; repeat split.
Qed.

(** ** set_export_mode and exporting *)

(** C4. After [set_export_mode(mode)] every node of the module tree,
    the model included, has [in_export_mode] equal to [mode], for
    [mode] true as for [mode] false; the tree has the nodes it had. *)
Theorem set_export_mode_all_nodes (me : Model) (mode : bool) :
  (forall p, is_node me p ->
             in_export_mode_at (set_export_mode me mode) p = Some mode)
  /\ uniform (set_export_mode me mode) mode
  /\ in_export_mode (set_export_mode me mode) = mode
  /\ (forall p, is_node (set_export_mode me mode) p <-> is_node me p).
Proof.
  pose proof (set_export_mode_uniform me mode) as Hu.
  split; [|split; [exact Hu|split]].
  - intros p Hp. apply Hu, set_export_mode_node, Hp.
  - assert (Hroot : in_export_mode_at (set_export_mode me mode) [] = Some mode)
      by (apply Hu; left; reflexivity).
    simpl in Hroot. congruence.
  - intros p. apply set_export_mode_node.
Qed.

Section exporting_facts.
Context {Samples A : Type}.
Implicit Types (body : M Samples A) (w : World Samples).

Lemma exporting_enter w :
  before_yield exporting w =
  (mkWorld (set_export_mode (self w) true) (calls w), Ok tt).
Proof. reflexivity. Qed.

(** An exception in the body leaves the [with] with the state the
    body left behind. *)
Lemma with_exporting_raise body w w2 e :
  body (mkWorld (set_export_mode (self w) true) (calls w)) = (w2, Raise e) ->
  with_ exporting body w = (w2, Raise e).
Proof.
  intros Hbody. unfold with_. rewrite exporting_enter, Hbody. reflexivity.
Qed.

Lemma with_exporting_return body w w2 a :
  body (mkWorld (set_export_mode (self w) true) (calls w)) = (w2, Ok a) ->
  with_ exporting body w =
  (mkWorld (set_export_mode (self w2) false) (calls w2), Ok a).
Proof.
  intros Hbody. unfold with_. rewrite exporting_enter, Hbody. reflexivity.
Qed.

(** C5. When the body of the [exporting] scope returns, the scope
    returns what the body returned, and on exit [in_export_mode] is
    false on every node of the module tree. *)
Theorem exporting_normal_exit body w w2 a :
  body (mkWorld (set_export_mode (self w) true) (calls w)) = (w2, Ok a) ->
  exists w3,
    with_ exporting body w = (w3, Ok a)
    /\ uniform (self w3) false
    /\ in_export_mode (self w3) = false.
Proof.
  intros Hbody. eexists. split; [apply with_exporting_return, Hbody|].
  simpl. split; [apply set_export_mode_uniform|].
  assert (Hroot : in_export_mode_at (set_export_mode (self w2) false) []
                  = Some false)
    by (apply set_export_mode_uniform; left; reflexivity).
  simpl in Hroot. congruence.
Qed.
End exporting_facts.

Lemma exporting_normal_exit_witness :
  exists w3,
    with_ exporting (mret tt) (mkWorld (Samples := unit) nested_model [])
      = (w3, Ok tt)
    /\ uniform (self w3) false
    /\ in_export_mode (self w3) = false.
Proof.
  apply (exporting_normal_exit (mret tt) (mkWorld nested_model [])
           (mkWorld (set_export_mode nested_model true) []) tt).
  reflexivity.
Defined.

(** C3. The reset does not survive an exception. A body that raises
    inside the [exporting] scope leaves the [with] statement by that
    exception, and [in_export_mode] is then true, not false, on every
    node; for [nested_model] it stays true on the model and on both
    modules below it. *)
Theorem exporting_raise_keeps_export_mode (w : World unit) (e : exn) :
  with_ (A := unit) exporting (raise e) w
  = (mkWorld (set_export_mode (self w) true) (calls w), Raise e)
  /\ uniform (self (with_ (A := unit) exporting (raise e) w).1) true
  /\ in_export_mode (self (with_ (A := unit) exporting (raise e) w).1) = true
  /\ with_ (A := unit) exporting (raise (RuntimeError "boom"))
           (mkWorld (Samples := unit) nested_model [])
     = (mkWorld
          {| box_with_velocity := false;
             in_export_mode := true;
             training := true;
             children :=
               [mkLayer (Some true) true [mkLayer (Some true) true []]] |}
          [],
        Raise (RuntimeError "boom")).
Proof.
  assert (Hrun : with_ (A := unit) exporting (raise e) w
                 = (mkWorld (set_export_mode (self w) true) (calls w), Raise e))
    by (apply with_exporting_raise; reflexivity).
  rewrite Hrun. simpl.
  pose proof (set_export_mode_uniform (self w) true) as Hu.
  split; [reflexivity|]. split; [exact Hu|]. split; [|reflexivity].
  assert (Hroot : in_export_mode_at (set_export_mode (self w) true) [] = Some true)
    by (apply Hu; left; reflexivity).
  simpl in Hroot. congruence.
Qed.

(** The same through [export]: when the serializer fails, [export]
    fails with its exception and the model is left in export mode. *)
Example export_failure_keeps_export_mode :
  let after := export (R := TableRuntime) (C := ImageModel) (E := FailingExporter) "out" None
                      (mkWorld nested_model []) in
  after.2 = Raise (RuntimeError "cannot save")
  /\ in_export_mode (self after.1) = true
  /\ in_export_mode_at (self after.1) [0%nat; 0%nat] = Some true.
Proof. vm_compute. repeat split. Qed.

Example sublayers_nested_model :
  sublayers nested_model true = [[]; [0%nat]; [0%nat; 0%nat]]
  /\ sublayers nested_model false = [[0%nat]; [0%nat; 0%nat]].
Proof. split; reflexivity. Qed.

(** ** input_spec as a property of the model *)



(** The shape check, where it passes, leaves the list with every
    dimension overwritten as [normal_dim] says, and passes again on
    what it left. *)
Lemma verify_dims_normal (dims : list pyval) :
  forall dims' u,
    verify_dims dims = (dims', Ok u) -> dims' = normal_dim <$> dims.
Proof.
  induction dims as [|ele rest IH]; simpl; intros dims' u Hrun.
  - injection Hrun as <- _. reflexivity.
  - destruct ele; try discriminate;
      destruct (verify_dims rest) as [rest' r] eqn:Hrest;
      injection Hrun as <- ->; simpl; f_equal; exact (IH _ _ eq_refl).
Qed.

Lemma verify_dims_again (dims : list pyval) :
  forall dims' u,
    verify_dims dims = (dims', Ok u) -> verify_dims dims' = (dims', Ok u).
Proof.
  induction dims as [|ele rest IH]; simpl; intros dims' u Hrun.
  - injection Hrun as <- <-. reflexivity.
  - destruct ele; try discriminate;
      destruct (verify_dims rest) as [rest' r] eqn:Hrest;
      injection Hrun as <- ->; pose proof (IH _ _ eq_refl) as Hagain.
    + simpl. rewrite Hagain. reflexivity.
    + simpl. rewrite Hagain. reflexivity.
    + destruct (z <? -1) eqn:Hz; simpl; rewrite Hagain;
        [reflexivity | rewrite Hz; reflexivity].
Qed.

Section constructor_facts.
Context {R : Runtime}.

Lemma InputSpec_verify_normal (dims : list pyval) s' t :
  InputSpec_verify (VList dims) = (s', Ok t) ->
  s' = VList (normal_dim <$> dims)
  /\ t = VList (normal_dim <$> dims)
  /\ InputSpec_verify s' = (s', Ok t).
Proof.
  intros Hrun. unfold InputSpec_verify in Hrun. destruct dims as [|d0 ds].
  - destruct accepts_empty_shape eqn:Hacc; [|discriminate].
    injection Hrun as <- <-. unfold InputSpec_verify. rewrite Hacc. auto.
  - destruct (verify_dims (d0 :: ds)) as [dims' [u|x]] eqn:Hdims;
      simpl in Hrun; [|discriminate].
    injection Hrun as <- <-.
    pose proof (verify_dims_normal _ _ _ Hdims) as Hnormal.
    pose proof (verify_dims_again _ _ _ Hdims) as Hagain.
    subst dims'. split; [reflexivity|]. split; [reflexivity|].
    unfold InputSpec_verify.
    change (normal_dim <$> d0 :: ds) with (normal_dim d0 :: (normal_dim <$> ds))
      in Hagain |- *.
    rewrite Hagain. reflexivity.
Qed.

(** A call of the constructor that returns leaves the entry with its
    shape list overwritten, keeps the name it was given, and returns
    the same descriptor when called on the entry again. *)
Lemma InputSpec_init_Ok (e e' : gmap string pyval) d :
  InputSpec_init e = (e', Ok d) ->
  e' = normal_entry e
  /\ name d = name_of e
  /\ InputSpec_init e' = (e', Ok d).
Proof.
  unfold InputSpec_init at 1.
  destruct (decide (dom e ⊆ InputSpec_params)) as [Hdom|]; [|discriminate].
  destruct (e !! "shape") as [s|] eqn:Hs; [|discriminate].
  destruct (InputSpec_verify s) as [s' [t|x]] eqn:Hverify; [|discriminate].
  destruct s as [| | | |dims];
    try (unfold InputSpec_verify in Hverify; discriminate).
  destruct (InputSpec_verify_normal dims s' t Hverify) as (-> & -> & Hagain).
  set (conv := match default (VStr "float32") (e !! "dtype") with
               | VNone => Ok VNone
               | d0 => convert_np_dtype_to_dtype_ d0
               end).
  destruct conv as [dt|x] eqn:Hconv; simpl; [|discriminate].
  intros Hrun. injection Hrun as <- <-.
  split; [unfold normal_entry; rewrite Hs; reflexivity|].
  split; [reflexivity|].
  unfold InputSpec_init.
  rewrite decide_True.
  - rewrite lookup_insert_eq, Hagain.
    rewrite !lookup_insert_ne by discriminate.
    fold conv. rewrite Hconv. simpl. rewrite insert_insert_eq. reflexivity.
  - rewrite dom_insert_lookup_L by eauto. exact Hdom.
Qed.

Lemma normal_entry_name (e : gmap string pyval) :
  normal_entry e !! "name" = e !! "name".
Proof.
  unfold normal_entry. destruct (e !! "shape") as [[| | | |dims]|]; try reflexivity.
  apply lookup_insert_ne. discriminate.
Qed.

Lemma InputSpec_kw_name (e : gmap string pyval) d :
  InputSpec_kw e = Ok d -> name d = name_of e.
Proof.
  unfold InputSpec_kw. destruct (InputSpec_init e) as [e' r] eqn:Hinit.
  simpl. intros ->. apply (InputSpec_init_Ok e e' d Hinit).
Qed.

Lemma well_formed_name_refl (e : gmap string pyval) :
  well_formed e -> key_eqb (name_of e) (name_of e) = true.
Proof.
  intros ((k & Hk & Hhash) & _). unfold name_of. rewrite Hk. simpl.
  apply key_eqb_refl, Hhash.
Qed.

(** One round that returns: the entry is well formed, it is left with
    its shape list overwritten, and a round on what is left returns the
    same. *)
Lemma input_spec_step_Ok (data data' : pydict InputSpec) e e' :
  input_spec_step data e = (e', Ok data') ->
  well_formed e
  /\ e' = normal_entry e
  /\ forall data0, input_spec_step data0 e' = (e', (input_spec_step data0 e).2).
Proof.
  unfold input_spec_step at 1, getitem.
  destruct (e !! "name") as [k|] eqn:Hk; [|discriminate].
  destruct (InputSpec_init e) as [after [d|x]] eqn:Hinit; simpl;
    [|discriminate].
  destruct (hashable k) eqn:Hhash; [|discriminate].
  intros Hrun. injection Hrun as <- <-.
  destruct (InputSpec_init_Ok e after d Hinit) as (Hafter & _ & Hagain).
  split; [|split; [exact Hafter|]].
  - split; [eauto|]. exists d. unfold InputSpec_kw. rewrite Hinit. reflexivity.
  - intros data0.
    assert (Hname : after !! "name" = Some k)
      by (rewrite Hafter, normal_entry_name; exact Hk).
    unfold input_spec_step, getitem.
    rewrite Hname, Hk, Hagain, Hinit. reflexivity.
Qed.

Lemma input_spec_step_inv (data data' : pydict InputSpec) (e : gmap string pyval) :
  (input_spec_step data e).2 = Ok data' -> well_formed e.
Proof.
  destruct (input_spec_step data e) as [e' r] eqn:Hstep. simpl. intros ->.
  apply (input_spec_step_Ok data data' e e' Hstep).
Qed.

Lemma input_spec_loop_inv (inputs : list (gmap string pyval)) :
  forall data data',
    (input_spec_loop data inputs).2 = Ok data' -> Forall well_formed inputs.
Proof.
  induction inputs as [|e rest IH]; intros data data' Hrun.
  - constructor.
  - rewrite input_spec_loop_result in Hrun.
    destruct (input_spec_step data e).2 as [d1|x] eqn:Hstep; [|discriminate].
    constructor.
    + exact (input_spec_step_inv data d1 e Hstep).
    + exact (IH d1 data' Hrun).
Qed.





Lemma input_spec_of_inv (inputs : list (gmap string pyval)) spec :
  input_spec_of inputs = Ok spec ->
  Forall well_formed inputs /\ spec = [stored [] inputs].
Proof.
  intros Hspec.
  assert (Hwf : Forall well_formed inputs).
  { rewrite input_spec_of_result in Hspec.
    destruct (input_spec_loop [] inputs).2 as [data|x] eqn:Hloop;
      [|discriminate].
    exact (input_spec_loop_inv inputs [] data Hloop). }
  split; [exact Hwf|].
  rewrite (input_spec_of_ok inputs Hwf) in Hspec. congruence.
Qed.


End constructor_facts.

(** The constructor on shapes and dtypes it refuses or rewrites. *)
Example InputSpec_refuses_scalar_shape :
  InputSpec_init (R := TableRuntime) {[ "name" := VStr "x"; "shape" := VInt 3 ]}
  = ({[ "name" := VStr "x"; "shape" := VInt 3 ]},
     Raise (TypeError "shape should be one of (tuple, list)")).
Proof. vm_compute. reflexivity. Qed.

Example InputSpec_refuses_text_dimension :
  InputSpec_kw (R := TableRuntime)
    {[ "name" := VStr "x"; "shape" := VList [VInt 1; VStr "n"] ]}
  = Raise (ValueError "shape element should be an int").
Proof. vm_compute. reflexivity. Qed.

Example InputSpec_refuses_unknown_dtype :
  InputSpec_kw (R := TableRuntime)
    {[ "name" := VStr "x"; "dtype" := VStr "bogus"; "shape" := VList [VInt 1] ]}
  = Raise (TypeError "data type not understood").
Proof. vm_compute. reflexivity. Qed.

Example InputSpec_rewrites_dimensions :
  InputSpec_init (R := TableRuntime)
    {[ "name" := VStr "x"; "shape" := VList [VNone; VInt (-5); VInt 3] ]}
  = ({[ "name" := VStr "x"; "shape" := VList [VInt (-1); VInt (-1); VInt 3] ]},
     Ok {| shape := VList [VInt (-1); VInt (-1); VInt 3];
           dtype := VStr "float32";
           name := VStr "x";
           stop_gradient := VBool false |}).
Proof. vm_compute. reflexivity. Qed.

(** A dimension refused after one was overwritten: the list keeps the
    overwritten one. *)
Example InputSpec_rewrites_before_refusing :
  InputSpec_init (R := TableRuntime)
    {[ "name" := VStr "x"; "shape" := VList [VNone; VStr "n"] ]}
  = ({[ "name" := VStr "x"; "shape" := VList [VInt (-1); VStr "n"] ]},
     Raise (ValueError "shape element should be an int")).
Proof. vm_compute. reflexivity. Qed.

Ltac well_formed_entry :=
  split; [ eexists; split; reflexivity | eexists; vm_compute; reflexivity ].

Section input_spec_facts.
Context {R : Runtime} {Samples Out} {C : DetectionClass Samples Out}.

Lemma input_spec_pure (w : World Samples) :
  input_spec w = (w, input_spec_of inputs).
Proof. reflexivity. Qed.


End input_spec_facts.




(** ** save_name and export *)


Lemma lower_length (s : string) : String.length (lower s) = String.length s.
Proof. induction s as [|c s IH]; simpl; congruence. Qed.


Section export_facts.
Context {R : Runtime} {Samples Out} {C : DetectionClass Samples Out} {E : Exporter}.



End export_facts.




(** ** Instantiation *)

Lemma abstractmethods_spec (base : gset string) (body : gmap string member) n :
  n ∈ abstractmethods base body <->
  body !! n = Some AbstractMember \/ (body !! n = None /\ n ∈ base).
Proof.
  unfold abstractmethods.
  rewrite elem_of_union, elem_of_dom, elem_of_filter.
  split.
  - intros [[d Hd] | [Hn Hb]]; [left | right; auto].
    apply map_lookup_filter_Some in Hd as [Hd Habs]. simpl in Habs.
    congruence.
  - intros [Hd | [Hn Hb]]; [left | right; auto].
    exists AbstractMember. apply map_lookup_filter_Some. auto.
Qed.

(** A name is abstract on a class exactly when looking it up finds an
    abstract definition. *)
Lemma class_abstractmethods_spec (chain : list (gmap string member)) n :
  n ∈ class_abstractmethods chain <-> class_getattr chain n = Some AbstractMember.
Proof.
  unfold class_abstractmethods, class_getattr.
  induction chain as [|body chain IH] using rev_ind.
  - simpl. destruct (decide _) as [Hin|Hout]; split; intros Hn; try done.
  - rewrite !foldl_app. simpl. rewrite abstractmethods_spec, IH.
    destruct (body !! n) as [d|]; split.
    + intros [Hd | [Hd _]]; [exact Hd | discriminate].
    + intros Hd. left. exact Hd.
    + intros [Hd | [_ Hd]]; [discriminate | exact Hd].
    + intros Hd. right. auto.
Qed.

(** Lookup of one of the five names always finds a definition. *)
Lemma class_getattr_base (chain : list (gmap string member)) n :
  n ∈ BaseDetectionModel_abstractmethods -> is_Some (class_getattr chain n).
Proof.
  intros Hn. unfold class_getattr.
  induction chain as [|body chain IH] using rev_ind.
  - simpl. rewrite decide_True by exact Hn. eauto.
  - rewrite foldl_app. simpl. destruct (body !! n); eauto.
Qed.

(** C8. A class that leaves one of [inputs], [sensor], [test_forward],
    [train_forward], [export_forward] without a concrete definition
    cannot be instantiated: the call to the class raises [TypeError],
    whatever [__init__] the class has, and no model object comes into
    being on which a method could be called. *)
Theorem instantiate_abstract (chain : list (gmap string member))
        (n : string) (own_init : result Model) (box_with_velocity : bool) :
  n ∈ BaseDetectionModel_abstractmethods ->
  class_getattr chain n <> Some ConcreteMember ->
  instantiate chain own_init box_with_velocity
  = Raise (TypeError "Can't instantiate abstract class")
  /\ forall me, instantiate chain own_init box_with_velocity <> Ok me.
Proof.
  intros Hn Hleft.
  assert (Habs : n ∈ class_abstractmethods chain).
  { apply class_abstractmethods_spec.
    destruct (class_getattr_base chain n Hn) as [[] Hd]; congruence. }
  unfold instantiate. rewrite decide_False.
  - split; [reflexivity | discriminate].
  - intros Hempty. rewrite Hempty in Habs. exact (not_elem_of_empty n Habs).
Qed.

Lemma instantiate_abstract_witness :
  instantiate [ {[ "inputs" := ConcreteMember; "sensor" := ConcreteMember;
                   "test_forward" := ConcreteMember;
                   "train_forward" := ConcreteMember ]} ]
              (Ok nested_model) false
  = Raise (TypeError "Can't instantiate abstract class")
  /\ forall me,
       instantiate [ {[ "inputs" := ConcreteMember; "sensor" := ConcreteMember;
                        "test_forward" := ConcreteMember;
                        "train_forward" := ConcreteMember ]} ]
                   (Ok nested_model) false <> Ok me.
Proof.
  apply (instantiate_abstract _ "export_forward" (Ok nested_model) false).
  - apply (bool_decide_unpack _). vm_compute. reflexivity.
  - vm_compute. discriminate.
Defined.

(** A class that defines all five concretely and keeps the [__init__]
    of [BaseDetectionModel] is instantiated by that [__init__]; one
    that has its own is instantiated by its own. *)
Example instantiate_complete :
  instantiate [ {[ "inputs" := ConcreteMember; "sensor" := ConcreteMember;
                   "test_forward" := ConcreteMember;
                   "train_forward" := ConcreteMember ]};
                {[ "export_forward" := ConcreteMember ]} ]
              (Ok nested_model) true
  = Ok (init true)
  /\ instantiate [ {[ "inputs" := ConcreteMember; "sensor" := ConcreteMember;
                      "test_forward" := ConcreteMember;
                      "train_forward" := ConcreteMember;
                      "export_forward" := ConcreteMember;
                      "__init__" := ConcreteMember ]} ]
                 (Ok nested_model) true
     = Ok nested_model.
Proof. split; vm_compute; reflexivity. Qed.

(* ================================================================= *)
(** * Further properties *)

(** ** set_export_mode as a whole-tree assignment *)

(** Assignments below one sub-module only change that sub-module. *)
Lemma layer_setattr_below (mode : bool) (i : nat) (ps : list path) :
  forall f t cs c,
    cs !! i = Some c ->
    foldl (fun l p => layer_setattr p mode l) (mkLayer f t cs) (cons i <$> ps)
    = mkLayer f t (<[i := foldl (fun l p => layer_setattr p mode l) c ps]> cs).
Proof.
  induction ps as [|p ps IH]; intros f t cs c Hc; simpl.
  - rewrite list_insert_id by exact Hc. reflexivity.
  - rewrite Hc.
    rewrite (IH f t _ (layer_setattr p mode c)).
    + rewrite list_insert_insert_eq. reflexivity.
    + apply list_lookup_insert_eq. eapply lookup_lt_Some, Hc.
Qed.

Lemma layer_setattr_forest (mode : bool) (cs : list Layer) :
  Forall (fun c => foldl (fun l p => layer_setattr p mode l) c (layer_sublayers c)
                   = layer_fill mode c) cs ->
  forall pre f t,
    foldl (fun l p => layer_setattr p mode l) (mkLayer f t (pre ++ cs))
          (forest_sublayers (length pre) cs)
    = mkLayer f t (pre ++ List.map (layer_fill mode) cs).
Proof.
  induction 1 as [|c cs Hc _ IH]; intros pre f t; simpl.
  - reflexivity.
  - rewrite foldl_app.
    rewrite (layer_setattr_below mode (length pre) _ f t _ c)
      by apply list_lookup_middle, eq_refl.
    rewrite Hc.
    replace (<[length pre := layer_fill mode c]> (pre ++ c :: cs))
      with ((pre ++ [layer_fill mode c]) ++ cs).
    + replace (S (length pre)) with (length (pre ++ [layer_fill mode c]))
        by (rewrite length_app; simpl; lia).
      rewrite IH, <- app_assoc. reflexivity.
    + pose proof (insert_app_r pre (c :: cs) 0%nat (layer_fill mode c)) as Hins.
      rewrite Nat.add_0_r in Hins. rewrite Hins, <- app_assoc. reflexivity.
Qed.

(** The loop over the enumeration of a layer assigns the attribute on
    the whole subtree. *)
Lemma layer_setattr_all (mode : bool) (l : Layer) :
  foldl (fun l p => layer_setattr p mode l) l (layer_sublayers l)
  = layer_fill mode l.
Proof.
  induction l as [f t cs IH] using Layer_forall_ind.
  rewrite layer_sublayers_unfold. simpl.
  apply (layer_setattr_forest mode cs IH [] (Some mode) t).
Qed.

Lemma as_layer_setattr (me : Model) (p : path) (mode : bool) :
  as_layer (setattr_in_export_mode me p mode)
  = layer_setattr p mode (as_layer me).
Proof.
  destruct p as [|i p]; simpl; [reflexivity|].
  destruct (children me !! i); reflexivity.
Qed.

Lemma setattr_box_with_velocity (me : Model) (p : path) (mode : bool) :
  box_with_velocity (setattr_in_export_mode me p mode) = box_with_velocity me.
Proof.
  destruct p as [|i p]; simpl; [reflexivity|].
  destruct (children me !! i); reflexivity.
Qed.

Lemma as_layer_loop (mode : bool) (ps : list path) :
  forall me,
    as_layer (foldl (fun m q => setattr_in_export_mode m q mode) me ps)
    = foldl (fun l p => layer_setattr p mode l) (as_layer me) ps
    /\ box_with_velocity (foldl (fun m q => setattr_in_export_mode m q mode) me ps)
       = box_with_velocity me.
Proof.
  induction ps as [|p ps IH]; intros me; simpl.
  - split; reflexivity.
  - destruct (IH (setattr_in_export_mode me p mode)) as [Hl Hb].
    rewrite Hl, Hb, as_layer_setattr, setattr_box_with_velocity.
    split; reflexivity.
Qed.

Lemma set_export_mode_fill (me : Model) (mode : bool) :
  set_export_mode me mode
  = {| box_with_velocity := box_with_velocity me;
       in_export_mode := mode;
       training := training me;
       children := List.map (layer_fill mode) (children me) |}.
Proof.
  assert (Hsub : sublayers me true = layer_sublayers (as_layer me))
    by (rewrite layer_sublayers_unfold; reflexivity).
  destruct (as_layer_loop mode (sublayers me true) me) as [Hl Hb].
  fold (set_export_mode me mode) in Hl, Hb.
  rewrite Hsub, layer_setattr_all in Hl.
  destruct (set_export_mode me mode) as [b f t cs].
  unfold as_layer in Hl. simpl in *. injection Hl as -> -> ->.
  rewrite Hb. reflexivity.
Qed.

Lemma layer_fill_fill (m1 m2 : bool) (l : Layer) :
  layer_fill m2 (layer_fill m1 l) = layer_fill m2 l.
Proof.
  induction l as [f t cs IH] using Layer_forall_ind. simpl.
  f_equal. rewrite List.map_map. apply List.map_ext_Forall, IH.
Qed.

Lemma layer_fill_length (mode : bool) (cs : list Layer) :
  length (List.map (layer_fill mode) cs) = length cs.
Proof. apply List.length_map. Qed.

Lemma layer_fill_id (mode : bool) (l : Layer) :
  (forall p, is_Some (layer_at p l) -> layer_in_export_mode_at p l = Some mode) ->
  layer_fill mode l = l.
Proof.
  induction l as [f t cs IH] using Layer_forall_ind. intros Hall. simpl.
  assert (Hroot : f = Some mode).
  { specialize (Hall [] (ltac:(simpl; eauto))). exact Hall. }
  rewrite Hroot. f_equal.
  rewrite <- (List.map_id cs) at 2. apply List.map_ext_Forall.
  apply Forall_lookup. intros i c Hc.
  rewrite Forall_lookup in IH. apply (IH i c Hc).
  intros p Hp. specialize (Hall (i :: p)).
  unfold layer_in_export_mode_at in *. simpl in Hall. rewrite Hc in Hall.
  apply Hall, Hp.
Qed.

Lemma uniform_fill (me : Model) (mode : bool) :
  uniform me mode ->
  in_export_mode me = mode
  /\ List.map (layer_fill mode) (children me) = children me.
Proof.
  intros Hu. split.
  - specialize (Hu [] (or_introl eq_refl)). simpl in Hu. congruence.
  - rewrite <- (List.map_id (children me)) at 2. apply List.map_ext_Forall.
    apply Forall_lookup. intros i c Hc. apply layer_fill_id. intros p Hp.
    specialize (Hu (i :: p)). unfold is_node in Hu. simpl in Hu.
    rewrite Hc in Hu. apply Hu. right. exact Hp.
Qed.

(** X1. The loop of [set_export_mode] over the enumerated sub-modules
    amounts to one assignment on the model and one on every layer of
    every sub-module's subtree, whatever attributes were there. *)
Theorem set_export_mode_is_fill (me : Model) (mode : bool) :
  set_export_mode me mode
  = {| box_with_velocity := box_with_velocity me;
       in_export_mode := mode;
       training := training me;
       children := List.map (layer_fill mode) (children me) |}
  /\ forall (i : nat) c,
       children me !! i = Some c ->
       children (set_export_mode me mode) !! i
       = Some (mkLayer (Some mode) (layer_training c)
                       (List.map (layer_fill mode) (sub_layers c))).
Proof.
  split; [apply set_export_mode_fill|].
  intros i c Hc. rewrite set_export_mode_fill. simpl.
  change (List.map (layer_fill mode) (children me))
    with (layer_fill mode <$> children me).
  rewrite list_lookup_fmap, Hc. destruct c. reflexivity.
Qed.

(** X2. [set_export_mode] touches nothing but [in_export_mode]:
    [box_with_velocity], the [training] flag of the model and of each
    sub-module, and the number of sub-modules stay as they were, and
    so does [outputs]. *)
Theorem set_export_mode_frame (me : Model) (mode : bool) :
  box_with_velocity (set_export_mode me mode) = box_with_velocity me
  /\ training (set_export_mode me mode) = training me
  /\ length (children (set_export_mode me mode)) = length (children me)
  /\ List.map layer_training (children (set_export_mode me mode))
     = List.map layer_training (children me)
  /\ outputs (set_export_mode me mode) = outputs me.
Proof.
  rewrite set_export_mode_fill. simpl.
  split; [reflexivity|]. split; [reflexivity|].
  split; [apply layer_fill_length|]. split; [|reflexivity].
  rewrite List.map_map. apply List.map_ext. intros []. reflexivity.
Qed.

(** X3. Of two calls of [set_export_mode] in a row the second decides:
    the result is that of the second call alone. In particular calling
    it twice with one mode is the same as calling it once. *)
Theorem set_export_mode_twice (me : Model) (m1 m2 : bool) :
  set_export_mode (set_export_mode me m1) m2 = set_export_mode me m2
  /\ set_export_mode (set_export_mode me m2) m2 = set_export_mode me m2.
Proof.
  assert (Hgen : forall a b,
    set_export_mode (set_export_mode me a) b = set_export_mode me b).
  { intros a b. rewrite !set_export_mode_fill. simpl. f_equal.
    rewrite List.map_map. apply List.map_ext. intros c.
    apply layer_fill_fill. }
  split; apply Hgen.
Qed.

(** X4. On a model that already carries [mode] on every node
    [set_export_mode(mode)] changes nothing; so switching export mode
    on and off again gives back a model that was out of export mode on
    every node. *)
Theorem set_export_mode_round_trip (me : Model) :
  uniform me false ->
  set_export_mode me false = me
  /\ set_export_mode (set_export_mode me true) false = me.
Proof.
  intros Hu.
  assert (Hid : set_export_mode me false = me).
  { rewrite set_export_mode_fill.
    destruct (uniform_fill me false Hu) as [Hflag Hcs].
    rewrite Hcs, <- Hflag. destruct me. reflexivity. }
  split; [exact Hid|].
  rewrite <- Hid at 2. rewrite !set_export_mode_fill. simpl. f_equal.
  rewrite List.map_map. apply List.map_ext. intros c. apply layer_fill_fill.
Qed.

Lemma settled_model_uniform : uniform settled_model false.
Proof.
  change settled_model with (set_export_mode settled_model false).
  apply set_export_mode_uniform.
Qed.

Lemma set_export_mode_round_trip_witness :
  set_export_mode settled_model false = settled_model
  /\ set_export_mode (set_export_mode settled_model true) false = settled_model.
Proof.
  apply (set_export_mode_round_trip settled_model).
  change settled_model with (set_export_mode settled_model false).
  apply set_export_mode_uniform.
Defined.

(** ** forward and the exporting scope *)

Lemma set_export_mode_flag (me : Model) (mode : bool) :
  in_export_mode (set_export_mode me mode) = mode.
Proof. rewrite set_export_mode_fill. reflexivity. Qed.

Lemma set_export_mode_training (me : Model) (mode : bool) :
  training (set_export_mode me mode) = training me.
Proof. rewrite set_export_mode_fill. reflexivity. Qed.

Section scope_facts.
Context {Samples Out} {C : DetectionClass Samples Out}.

Lemma forward_unfold (samples : Samples) (w : World Samples) :
  forward samples w =
  if in_export_mode (self w) then invoke ExportPath samples w
  else if training (self w) then invoke TrainPath samples w
  else invoke TestPath samples w.
Proof.
  unfold forward, get_self, mbind, M_bind.
  destruct (in_export_mode (self w)), (training (self w)); reflexivity.
Qed.

(** X5. A [forward] call made inside the [exporting] scope runs the
    export computation, in training mode as in evaluation mode, on the
    model with export mode switched on. *)
Theorem forward_inside_exporting (samples : Samples) (w : World Samples) :
  calls (with_ exporting (forward samples) w).1
  = calls w ++ [CallForward ExportPath samples]
  /\ (with_ exporting (forward samples) w).2
     = (export_forward samples (set_export_mode (self w) true)).2.
Proof.
  unfold with_. rewrite exporting_enter, forward_unfold. simpl.
  rewrite set_export_mode_flag, invoke_eq. simpl.
  destruct (export_forward samples (set_export_mode (self w) true))
    as [m' [a|e]]; simpl; split; reflexivity.
Qed.

(** X6. Once an [exporting] scope has been left normally, [forward]
    runs [train_forward] when the [training] flag the body left is set
    and [test_forward] when it is not, on the model with export mode
    switched off, and returns or raises what that computation does;
    [export_forward] is not run. *)
Theorem forward_after_exporting {A} (body : M Samples A) (samples : Samples)
        (w w2 : World Samples) (a : A) :
  body (mkWorld (set_export_mode (self w) true) (calls w)) = (w2, Ok a) ->
  forward samples (with_ exporting body w).1
  = if training (self w2)
    then (mkWorld (train_forward samples (set_export_mode (self w2) false)).1
                  (calls w2 ++ [CallForward TrainPath samples]),
          (train_forward samples (set_export_mode (self w2) false)).2)
    else (mkWorld (test_forward samples (set_export_mode (self w2) false)).1
                  (calls w2 ++ [CallForward TestPath samples]),
          (test_forward samples (set_export_mode (self w2) false)).2).
Proof.
  intros Hbody. rewrite (with_exporting_return body w w2 a Hbody).
  rewrite forward_unfold. simpl.
  rewrite set_export_mode_flag, set_export_mode_training.
  destruct (training (self w2)); rewrite invoke_eq; reflexivity.
Qed.

(** X7. Once an [exporting] scope has been left by an exception, the
    body not having switched export mode off itself, [forward] runs
    [export_forward], whatever the [training] flag, on the model as the
    body left it, and returns or raises what [export_forward] does. *)
Theorem forward_after_failed_exporting {A} (body : M Samples A)
        (samples : Samples) (w w2 : World Samples) (e : exn) :
  body (mkWorld (set_export_mode (self w) true) (calls w)) = (w2, Raise e) ->
  in_export_mode (self w2) = true ->
  forward samples (with_ exporting body w).1
  = (mkWorld (export_forward samples (self w2)).1
             (calls w2 ++ [CallForward ExportPath samples]),
     (export_forward samples (self w2)).2).
Proof.
  intros Hbody Hflag. rewrite (with_exporting_raise body w w2 e Hbody).
  rewrite forward_unfold. simpl. rewrite Hflag, invoke_eq. reflexivity.
Qed.

(** X8. The scope does not nest: leaving an inner [exporting] scope
    switches export mode off although the outer scope is still open,
    and a [forward] call that follows in the outer scope runs
    [train_forward] or [test_forward], by the [training] flag, on the
    model with export mode off, not [export_forward]: the outer scope
    ends with what that computation returns or raises. *)
Theorem exporting_not_reentrant (samples : Samples) (w : World Samples) :
  (with_ exporting (with_ exporting (mret tt);; forward samples) w).2
  = (if training (self w)
     then (train_forward samples (set_export_mode (self w) false)).2
     else (test_forward samples (set_export_mode (self w) false)).2)
  /\ calls (with_ exporting (with_ exporting (mret tt);; forward samples) w).1
     = calls w ++ [CallForward (if training (self w) then TrainPath else TestPath)
                               samples].
Proof.
  unfold with_ at 1 3. rewrite exporting_enter.
  unfold mbind, M_bind.
  rewrite (with_exporting_return (mret tt) _ _ tt eq_refl).
  rewrite forward_unfold. simpl.
  rewrite set_export_mode_flag, !set_export_mode_training.
  assert (Hoff : set_export_mode
                   (set_export_mode (set_export_mode (self w) true) true) false
                 = set_export_mode (self w) false).
  { rewrite !set_export_mode_fill. simpl. f_equal.
    rewrite !List.map_map. apply List.map_ext. intros c.
    rewrite !layer_fill_fill. reflexivity. }
  rewrite Hoff.
  destruct (training (self w)); rewrite invoke_eq; simpl.
  - destruct (train_forward samples (set_export_mode (self w) false))
      as [m' [a|e]]; split; reflexivity.
  - destruct (test_forward samples (set_export_mode (self w) false))
      as [m' [a|e]]; split; reflexivity.
Qed.
End scope_facts.

Lemma forward_after_exporting_witness :
  forward (C := ImageModel) tt
          (with_ exporting (mret tt) (mkWorld settled_model [])).1
  = (mkWorld settled_model [CallForward TestPath tt], Ok tt).
Proof.
  apply (forward_after_exporting (C := ImageModel) (mret tt) tt
           (mkWorld settled_model [])
           (mkWorld (set_export_mode settled_model true) []) tt).
  reflexivity.
Defined.

Lemma forward_after_failed_exporting_witness :
  forward (C := ImageModel) tt
          (with_ (A := unit) exporting (raise (RuntimeError "boom"))
                 (mkWorld nested_model [])).1
  = (mkWorld (set_export_mode nested_model true) [CallForward ExportPath tt],
     Ok tt).
Proof.
  apply (forward_after_failed_exporting (C := ImageModel)
           (raise (RuntimeError "boom")) tt (mkWorld nested_model [])
           (mkWorld (set_export_mode nested_model true) [])
           (RuntimeError "boom")); reflexivity.
Defined.

(** ** export: outcomes *)

Section export_outcomes.
Context {R : Runtime} {Samples Out} {C : DetectionClass Samples Out} {E : Exporter}.
Implicit Types (w : World Samples) (spec : list (pydict InputSpec)).

Ltac export_steps :=
  unfold export, with_; rewrite exporting_enter;
  unfold input_spec, of_result, to_static, save, record, on_self, mbind, M_bind;
  simpl.

Lemma export_run_spec_raise save_dir nm w e :
  input_spec_of inputs = Raise e ->
  export save_dir nm w
  = (mkWorld (set_export_mode (self w) true) (calls w), Raise e).
Proof. intros Hspec. export_steps. rewrite Hspec. reflexivity. Qed.

Lemma export_run_trace_raise save_dir nm w spec m2 e :
  input_spec_of inputs = Ok spec ->
  jit_to_static spec (set_export_mode (self w) true) = (m2, Raise e) ->
  export save_dir nm w = (mkWorld m2 (calls w ++ [CallToStatic spec]), Raise e).
Proof.
  intros Hspec Htrace. export_steps. rewrite Hspec. simpl.
  rewrite Htrace. reflexivity.
Qed.

Lemma export_run_save save_dir nm w spec m2 u m3 r :
  input_spec_of inputs = Ok spec ->
  jit_to_static spec (set_export_mode (self w) true) = (m2, Ok u) ->
  jit_save (os_path_join save_dir (name_or nm save_name)) [spec] m2 = (m3, r) ->
  export save_dir nm w
  = match r with
    | Ok _ =>
        (mkWorld (set_export_mode m3 false)
           (calls w ++ [CallToStatic spec;
                        CallSave (os_path_join save_dir (name_or nm save_name))
                                 [spec]]),
         Ok tt)
    | Raise e =>
        (mkWorld m3
           (calls w ++ [CallToStatic spec;
                        CallSave (os_path_join save_dir (name_or nm save_name))
                                 [spec]]),
         Raise e)
    end.
Proof.
  intros Hspec Htrace Hsave. export_steps. rewrite Hspec. simpl.
  rewrite Htrace. simpl. rewrite Hsave.
  destruct r as [[]|e]; simpl; rewrite <- app_assoc; reflexivity.
Qed.

(** X9. When the specification can be built and tracer and serializer
    both return, [export] returns, has called the tracer and then the
    serializer and nothing else, and leaves the model as the
    serializer left it with export mode off on every node. *)
Theorem export_success save_dir nm w spec m2 u m3 u' :
  input_spec_of inputs = Ok spec ->
  jit_to_static spec (set_export_mode (self w) true) = (m2, Ok u) ->
  jit_save (os_path_join save_dir (name_or nm save_name)) [spec] m2
  = (m3, Ok u') ->
  (export save_dir nm w).2 = Ok tt
  /\ calls (export save_dir nm w).1
     = calls w ++ [CallToStatic spec;
                   CallSave (os_path_join save_dir (name_or nm save_name)) [spec]]
  /\ self (export save_dir nm w).1 = set_export_mode m3 false
  /\ uniform (self (export save_dir nm w).1) false.
Proof.
  intros Hspec Htrace Hsave.
  rewrite (export_run_save save_dir nm w spec m2 u m3 _ Hspec Htrace Hsave).
  simpl. repeat split. apply set_export_mode_uniform.
Qed.

(** X10. When an entry of [inputs] makes [input_spec] raise, [export]
    raises that exception, calls neither tracer nor serializer, and
    leaves the model in export mode on every node. *)
Theorem export_spec_failure save_dir nm w e :
  input_spec_of inputs = Raise e ->
  (export save_dir nm w).2 = Raise e
  /\ calls (export save_dir nm w).1 = calls w
  /\ self (export save_dir nm w).1 = set_export_mode (self w) true
  /\ uniform (self (export save_dir nm w).1) true.
Proof.
  intros Hspec. rewrite (export_run_spec_raise save_dir nm w e Hspec).
  simpl. repeat split. apply set_export_mode_uniform.
Qed.

(** X11. When the tracer raises, [export] raises the same exception,
    the serializer is not called, and export mode is not switched off:
    the model is left as the tracer left it. *)
Theorem export_tracer_failure save_dir nm w spec m2 e :
  input_spec_of inputs = Ok spec ->
  jit_to_static spec (set_export_mode (self w) true) = (m2, Raise e) ->
  (export save_dir nm w).2 = Raise e
  /\ calls (export save_dir nm w).1 = calls w ++ [CallToStatic spec]
  /\ self (export save_dir nm w).1 = m2.
Proof.
  intros Hspec Htrace.
  rewrite (export_run_trace_raise save_dir nm w spec m2 e Hspec Htrace).
  repeat split.
Qed.

(** X12. When the serializer raises, [export] raises the same
    exception and export mode is not switched off: the model is left
    as the serializer left it. *)
Theorem export_save_failure save_dir nm w spec m2 u m3 e :
  input_spec_of inputs = Ok spec ->
  jit_to_static spec (set_export_mode (self w) true) = (m2, Ok u) ->
  jit_save (os_path_join save_dir (name_or nm save_name)) [spec] m2
  = (m3, Raise e) ->
  (export save_dir nm w).2 = Raise e
  /\ self (export save_dir nm w).1 = m3.
Proof.
  intros Hspec Htrace Hsave.
  rewrite (export_run_save save_dir nm w spec m2 u m3 _ Hspec Htrace Hsave).
  split; reflexivity.
Qed.

(** X13. Whatever happens, [export] makes at most two calls, the
    tracer's before the serializer's, both with the specification
    built from [inputs]; it never runs one of the model's three
    computations itself. *)
Theorem export_calls_shape save_dir nm w :
  calls (export save_dir nm w).1 = calls w
  \/ (exists spec,
        input_spec_of inputs = Ok spec
        /\ calls (export save_dir nm w).1 = calls w ++ [CallToStatic spec])
  \/ (exists spec,
        input_spec_of inputs = Ok spec
        /\ calls (export save_dir nm w).1
           = calls w ++ [CallToStatic spec;
                         CallSave (os_path_join save_dir (name_or nm save_name))
                                  [spec]]).
Proof.
  destruct (input_spec_of inputs) as [spec|e] eqn:Hspec.
  - destruct (jit_to_static spec (set_export_mode (self w) true))
      as [m2 [u|e]] eqn:Htrace.
    + right. right. exists spec. split; [reflexivity|].
      destruct (jit_save (os_path_join save_dir (name_or nm save_name))
                         [spec] m2) as [m3 r] eqn:Hsave.
      rewrite (export_run_save save_dir nm w spec m2 u m3 r Hspec Htrace Hsave).
      destruct r; reflexivity.
    + right. left. exists spec. split; [reflexivity|].
      rewrite (export_run_trace_raise save_dir nm w spec m2 e Hspec Htrace).
      reflexivity.
  - left. rewrite (export_run_spec_raise save_dir nm w e Hspec). reflexivity.
Qed.

(** X14. Leaving [name] out is the same as passing [save_name]. *)
Theorem export_default_name save_dir w :
  export save_dir None w = export save_dir (Some save_name) w.
Proof.
  unfold export.
  replace (name_or (Some save_name) save_name) with (name_or None save_name);
    [reflexivity|].
  simpl. destruct save_name; reflexivity.
Qed.

End export_outcomes.

Lemma export_success_witness :
  (export (R := TableRuntime) (C := ImageModel) (E := QuietExporter) "out" None
          (mkWorld nested_model [])).2 = Ok tt
  /\ uniform (self (export (R := TableRuntime) (C := ImageModel) (E := QuietExporter) "out" None
                           (mkWorld nested_model [])).1) false.
Proof.
  destruct (export_success (R := TableRuntime) (C := ImageModel) (E := QuietExporter) "out" None
              (mkWorld nested_model []) [stored (R := TableRuntime) [] [image_entry]]
              (set_export_mode nested_model true) tt
              (set_export_mode nested_model true) tt)
    as (Hres & _ & _ & Hu); try reflexivity.
  split; assumption.
Defined.

Lemma export_spec_failure_witness :
  (export (R := TableRuntime) (C := NamelessModel) (E := QuietExporter) "out" None
          (mkWorld nested_model [])).2 = Raise (KeyError "name")
  /\ calls (export (R := TableRuntime) (C := NamelessModel) (E := QuietExporter) "out" None
                   (mkWorld nested_model [])).1 = [].
Proof.
  destruct (export_spec_failure (R := TableRuntime) (C := NamelessModel) (E := QuietExporter)
              "out" None (mkWorld nested_model []) (KeyError "name"))
    as (Hres & Hcalls & _); [reflexivity|].
  split; assumption.
Defined.

Lemma export_tracer_failure_witness :
  (export (R := TableRuntime) (C := ImageModel) (E := FailingTracer) "out" None
          (mkWorld nested_model [])).2 = Raise (RuntimeError "cannot trace")
  /\ calls (export (R := TableRuntime) (C := ImageModel) (E := FailingTracer) "out" None
                   (mkWorld nested_model [])).1
     = [] ++ [CallToStatic [stored (R := TableRuntime) [] [image_entry]]]
  /\ self (export (R := TableRuntime) (C := ImageModel) (E := FailingTracer) "out" None
                  (mkWorld nested_model [])).1
     = set_export_mode nested_model true.
Proof.
  apply (export_tracer_failure (R := TableRuntime) (C := ImageModel) (E := FailingTracer)
           "out" None (mkWorld nested_model []) [stored (R := TableRuntime) [] [image_entry]]
           (set_export_mode nested_model true) (RuntimeError "cannot trace"));
    reflexivity.
Defined.

Lemma export_save_failure_witness :
  (export (R := TableRuntime) (C := ImageModel) (E := FailingExporter) "out" None
          (mkWorld nested_model [])).2 = Raise (RuntimeError "cannot save")
  /\ self (export (R := TableRuntime) (C := ImageModel) (E := FailingExporter) "out" None
                  (mkWorld nested_model [])).1
     = set_export_mode nested_model true.
Proof.
  apply (export_save_failure (R := TableRuntime) (C := ImageModel) (E := FailingExporter)
           "out" None (mkWorld nested_model []) [stored (R := TableRuntime) [] [image_entry]]
           (set_export_mode nested_model true) tt
           (set_export_mode nested_model true) (RuntimeError "cannot save"));
    reflexivity.
Defined.


(** ** input_spec: failures and the shape of the result *)

Lemma dict_setitem_elem {V} (d : pydict V) (k0 : pyval) (v0 : V) k v :
  (k, v) ∈ dict_setitem d k0 v0 ->
  (k, v) ∈ d \/ (v = v0 /\ (k = k0 \/ key_eqb k k0 = true)).
Proof.
  induction d as [|[k1 v1] d IH]; simpl.
  - intros Hin. apply list_elem_of_singleton in Hin. injection Hin as -> ->.
    right. auto.
  - destruct (key_eqb k1 k0) eqn:Hk1.
    + intros Hin. apply elem_of_cons in Hin as [Heq | Hin].
      * injection Heq as -> ->. right. auto.
      * left. right. exact Hin.
    + intros Hin. apply elem_of_cons in Hin as [Heq | Hin].
      * left. rewrite Heq. left.
      * destruct (IH Hin) as [Hd | Hnew]; [left; right; exact Hd | right; exact Hnew].
Qed.

Section input_spec_outcomes.
Context {R : Runtime} {Samples Out} {C : DetectionClass Samples Out}.

Lemma input_spec_loop_app (l1 l2 : list (gmap string pyval)) :
  forall data,
    (input_spec_loop data (l1 ++ l2)).2
    = rbind (input_spec_loop data l1).2 (fun d => (input_spec_loop d l2).2).
Proof.
  induction l1 as [|e l1 IH]; intros data.
  - reflexivity.
  - rewrite <- app_comm_cons, !input_spec_loop_result.
    destruct (input_spec_step data e).2 as [d1|x]; simpl; [apply IH|reflexivity].
Qed.

(** Every item of the dict is the descriptor of an entry, under a key
    equal to that entry's name. *)
Lemma stored_elem (entries : list (gmap string pyval)) :
  Forall well_formed entries ->
  forall data k d,
    (k, d) ∈ stored data entries ->
    (k, d) ∈ data
    \/ exists e, e ∈ entries /\ d = descriptor_of e
                 /\ key_eqb k (name_of e) = true.
Proof.
  induction 1 as [|e rest He _ IH]; intros data k d Hin.
  - left. exact Hin.
  - change (stored data (e :: rest))
      with (stored (dict_setitem data (name_of e) (descriptor_of e)) rest) in Hin.
    destruct (IH _ k d Hin) as [Hset | (e' & He' & Hd & Hk)].
    + apply dict_setitem_elem in Hset as [Hdata | [-> Hk]]; [left; exact Hdata|].
      right. exists e. split; [left|]. split; [reflexivity|].
      destruct Hk as [-> | Hk]; [apply well_formed_name_refl, He | exact Hk].
    + right. exists e'. split; [right; exact He'|]. auto.
Qed.

(** X16. [input_spec] returns exactly when every entry of [inputs],
    taken alone, goes through one round: it has a name, the name can be
    a dict key, and the descriptor's constructor returns on it. No
    combination of such entries makes it raise. *)
Theorem input_spec_returns_iff (w : World Samples) :
  (exists spec, (input_spec w).2 = Ok spec)
  <-> Forall (fun e => (exists k, e !! "name" = Some k /\ hashable k = true)
                       /\ exists d, InputSpec_kw e = Ok d) inputs.
Proof.
  rewrite input_spec_pure. simpl. split.
  - intros [spec Hspec]. apply (input_spec_of_inv inputs spec Hspec).
  - intros Hwf. exists [stored [] inputs]. apply input_spec_of_ok, Hwf.
Qed.

(** X17. When the entries before it go through, the first entry
    without a ["name"] key makes [input_spec] raise [KeyError('name')],
    whatever else is wrong with that entry and whatever entries follow
    it. *)
Theorem input_spec_missing_name (w : World Samples) pre bad rest :
  inputs = pre ++ bad :: rest ->
  Forall (fun e => (exists k, e !! "name" = Some k /\ hashable k = true)
                   /\ exists d, InputSpec_kw e = Ok d) pre ->
  bad !! "name" = None ->
  input_spec w = (w, Raise (KeyError "name")).
Proof.
  intros Hinputs Hpre Hbad.
  rewrite input_spec_pure, input_spec_of_result.
  rewrite Hinputs, input_spec_loop_app, (input_spec_loop_ok pre Hpre).
  cbv beta iota delta [rbind].
  rewrite input_spec_loop_result, input_spec_step_result.
  unfold getitem. rewrite Hbad. reflexivity.
Qed.

(** X18. Whenever [input_spec] returns, it returns a list of exactly
    one dict; no key occurs twice in the dict, the dict has at most as
    many items as [inputs] has entries (none for no entries), and each
    item is the descriptor of some entry of [inputs], stored under that
    entry's name and carrying that name. *)
Theorem input_spec_result_shape (w : World Samples) spec :
  (input_spec w).2 = Ok spec ->
  exists data,
    spec = [data]
    /\ keys_distinct data
    /\ (length data <= length inputs)%nat
    /\ (inputs = [] -> data = [])
    /\ forall k d,
         (k, d) ∈ data ->
         exists e, e ∈ inputs
                   /\ InputSpec_kw e = Ok d
                   /\ key_eqb k (name_of e) = true
                   /\ key_eqb (name d) k = true.
Proof.
  rewrite input_spec_pure. simpl. intros Hspec.
  destruct (input_spec_of_inv inputs spec Hspec) as [Hwf ->].
  exists (stored [] inputs).
  split; [reflexivity|]. split; [apply stored_distinct; exact I|].
  split; [apply (stored_length inputs [])|].
  split; [intros ->; reflexivity|].
  intros k d Hin.
  destruct (stored_elem inputs Hwf [] k d Hin) as [Hnil | (e & He & -> & Hk)].
  - inversion Hnil.
  - assert (Hwfe : well_formed e) by (rewrite Forall_forall in Hwf; auto).
    exists e. split; [exact He|]. split; [apply InputSpec_kw_ok, Hwfe|].
    split; [exact Hk|].
    rewrite (InputSpec_kw_name e _ (InputSpec_kw_ok e Hwfe)), key_eqb_sym.
    exact Hk.
Qed.
End input_spec_outcomes.

Lemma input_spec_missing_name_witness :
  input_spec (R := TableRuntime) (C := NamelessModel) (mkWorld nested_model [])
  = (mkWorld nested_model [], Raise (KeyError "name")).
Proof.
  apply (input_spec_missing_name (R := TableRuntime) (C := NamelessModel)
           (mkWorld nested_model [])
           [image_entry] nameless_entry [small_image_entry]).
  - reflexivity.
  - constructor; [well_formed_entry | constructor].
  - reflexivity.
Defined.

Lemma input_spec_result_shape_witness :
  exists data,
    [stored (R := TableRuntime) [] [image_entry; small_image_entry]] = [data]
    /\ keys_distinct data
    /\ (length data <= 2)%nat
    /\ (inputs (DetectionClass := TwoImagesModel) = [] -> data = [])
    /\ forall k d,
         (k, d) ∈ data ->
         exists e, e ∈ inputs (DetectionClass := TwoImagesModel)
                   /\ InputSpec_kw (R := TableRuntime) e = Ok d
                   /\ key_eqb k (name_of e) = true
                   /\ key_eqb (name d) k = true.
Proof.
  apply (input_spec_result_shape (R := TableRuntime) (C := TwoImagesModel)
           (mkWorld nested_model [])).
  reflexivity.
Defined.

(** ** Instantiation: the classes that can be instantiated *)

(** X19. A class can be instantiated exactly when attribute lookup
    finds no abstract definition on it; each of [inputs], [sensor],
    [test_forward], [train_forward] and [export_forward] is then
    concretely defined. A class that has an abstract definition left,
    one of these five or one a class of the chain adds, is refused
    with [TypeError] whatever its [__init__] would do. A class that can
    be instantiated and keeps the [__init__] of [BaseDetectionModel]
    yields a model out of export mode with the [box_with_velocity] of
    the call; one that has its own [__init__] yields what that makes. *)
Theorem instantiate_iff (chain : list (gmap string member))
        (own_init : result Model) (box_with_velocity0 : bool) :
  ((exists n, class_getattr chain n = Some AbstractMember) ->
     instantiate chain own_init box_with_velocity0
     = Raise (TypeError "Can't instantiate abstract class"))
  /\ ((forall n, class_getattr chain n <> Some AbstractMember) ->
      class_getattr chain "inputs" = Some ConcreteMember
      /\ class_getattr chain "sensor" = Some ConcreteMember
      /\ class_getattr chain "test_forward" = Some ConcreteMember
      /\ class_getattr chain "train_forward" = Some ConcreteMember
      /\ class_getattr chain "export_forward" = Some ConcreteMember
      /\ (class_getattr chain "__init__" = None ->
          exists me,
            instantiate chain own_init box_with_velocity0 = Ok me
            /\ in_export_mode me = false
            /\ box_with_velocity me = box_with_velocity0)
      /\ (is_Some (class_getattr chain "__init__") ->
          instantiate chain own_init box_with_velocity0 = own_init)).
Proof.
  assert (Hempty : class_abstractmethods chain = ∅
                   <-> forall n, class_getattr chain n <> Some AbstractMember).
  { split.
    - intros He n Hn. apply class_abstractmethods_spec in Hn.
      rewrite He in Hn. exact (not_elem_of_empty n Hn).
    - intros Hall. apply elem_of_equiv_empty_L. intros n Hn.
      apply class_abstractmethods_spec in Hn. exact (Hall n Hn). }
  assert (Hconcrete : forall n,
    (forall m, class_getattr chain m <> Some AbstractMember) ->
    n ∈ BaseDetectionModel_abstractmethods ->
    class_getattr chain n = Some ConcreteMember).
  { intros n Hall Hn.
    destruct (class_getattr_base chain n Hn) as [[] Hd]; [|exact Hd].
    destruct (Hall n Hd). }
  split.
  - intros [n Hn]. unfold instantiate. rewrite decide_False; [reflexivity|].
    intros He. exact (proj1 Hempty He n Hn).
  - intros Hall.
    repeat (split;
            [apply (Hconcrete _ Hall), (bool_decide_unpack _);
             vm_compute; reflexivity|]).
    unfold instantiate. rewrite decide_True by (apply Hempty, Hall).
    split.
    + intros ->. eexists. split; [reflexivity|]. split; reflexivity.
    + intros [d ->]. reflexivity.
Qed.
